(** * DeGrooteFregly2016Muscle: the curve library and the state accessors

    A shallow embedding of [OpenSim/Moco/Components/DeGrooteFregly2016Muscle.h].

    [SimTK::Real] (a C++ [double]) is modelled by the real numbers [R] of the
    Standard Library: every decimal constant of the header is the exact
    rational it denotes, and [exp], [log] (written [ln]), [sqrt] and [sinh]
    are the mathematical functions.  Rounding is not modelled, so an equation
    proved here is an equation between the curves the code evaluates, and a
    statement "within tolerance" is proved with an explicit bound on the
    distance between real numbers.  A quotient whose divisor is zero has no
    real value in the source (in [R] it is 0 by convention), so the theorems
    over [R] that depend on such a quotient carry the hypothesis that
    excludes it.  What the code returns when a divisor is zero is a matter
    of IEEE 754 arithmetic: module [Binary64] embeds the active
    force-length curve and its derivative a second time, over binary64
    floating-point numbers, and the behaviour at a pole is proved there. *)

From stdpp Require Import base gmap strings list.
From Stdlib Require Import ZArith Reals Lra Lia.
From Stdlib Require Floats.

(** ** Numbers of the SimTK layer *)

Module SimTK.

Local Open Scope R_scope.

Definition square (x : R) : R := x * x.
Definition cube (x : R) : R := x * x * x.

(** A [SimTK::Real] that may be the sentinel [SimTK::Infinity]. *)
Inductive Real : Type :=
| Finite (r : R)
| Infinity.

End SimTK.

(** ** The muscle: properties and cached constants *)

Module DeGrooteFregly2016Muscle.

Local Open Scope R_scope.
Import SimTK.

(** The properties declared with OpenSim_DECLARE_PROPERTY, the properties
    inherited from Muscle that the header reads through [get_...()], and
    the members computed from the properties ([m_kT],
    [m_isTendonDynamicsExplicit], whose computation is in the .cpp file and
    is therefore a field here). *)
Record Muscle : Type := {
  get_active_force_width_scale : R;
  get_fiber_damping : R;
  get_ignore_passive_fiber_force : bool;
  get_passive_fiber_strain_at_one_norm_force : R;
  get_tendon_strain_at_one_norm_force : R;
  get_max_isometric_force : R;
  get_optimal_fiber_length : R;
  get_tendon_slack_length : R;
  get_ignore_tendon_compliance : bool;
  get_ignore_activation_dynamics : bool;
  m_kT : R;
  m_isTendonDynamicsExplicit : bool;
  (** [Actuator]'s index of this actuator's control in the model controls,
      assigned when the model is built. *)
  controlIndex : nat
}.

(** *** Curve parameters (static constexpr members) *)

Definition b11 : R := 0.8150671134243542.
Definition b21 : R := 1.055033428970575.
Definition b31 : R := 0.162384573599574.
Definition b41 : R := 0.063303448465465.
Definition b12 : R := 0.433004984392647.
Definition b22 : R := 0.716775413397760.
Definition b32 : R := -0.029947116970696.
Definition b42 : R := 0.200356847296188.
Definition b13 : R := 0.1.
Definition b23 : R := 1.0.
Definition b33 : R := 0.353553390593274.
Definition b43 : R := 0.0.

Definition kPE : R := 4.0.

Definition c1 : R := 0.200.
Definition c2 : R := 1.0.
Definition c3 : R := 0.200.

Definition d1 : R := -0.3211346127989808.
Definition d2 : R := -8.149.
Definition d3 : R := -0.374.
Definition d4 : R := 0.8825327733249912.

Definition m_minNormFiberLength : R := 0.2.
Definition m_maxNormFiberLength : R := 1.8.

Definition m_minNormTendonForce : R := 0.0.
Definition m_maxNormTendonForce : R := 5.0.

(** *** Calculation methods *)

Definition calcGaussianLikeCurve (x b1 b2 b3 b4 : R) : R :=
  b1 * exp (-0.5 * square (x - b2) / square (b3 + b4 * x)).

Definition calcGaussianLikeCurveDerivative (x b1 b2 b3 b4 : R) : R :=
  (b1 * exp (- square (b2 - x) / (2 * square (b3 + b4 * x))) *
     (b2 - x) * (b3 + b2 * b4)) /
  cube (b3 + b4 * x).

Definition calcActiveForceLengthMultiplier (m : Muscle)
    (normFiberLength : R) : R :=
  let scale := get_active_force_width_scale m in
  let x := (normFiberLength - 1.0) / scale + 1.0 in
  calcGaussianLikeCurve x b11 b21 b31 b41 +
  calcGaussianLikeCurve x b12 b22 b32 b42 +
  calcGaussianLikeCurve x b13 b23 b33 b43.

Definition calcActiveForceLengthMultiplierDerivative (m : Muscle)
    (normFiberLength : R) : R :=
  let scale := get_active_force_width_scale m in
  let x := (normFiberLength - 1.0) / scale + 1.0 in
  (1.0 / scale) *
  (calcGaussianLikeCurveDerivative x b11 b21 b31 b41 +
   calcGaussianLikeCurveDerivative x b12 b22 b32 b42 +
   calcGaussianLikeCurveDerivative x b13 b23 b33 b43).

Definition calcForceVelocityMultiplier (normFiberVelocity : R) : R :=
  let tempV := d2 * normFiberVelocity + d3 in
  let tempLogArg := tempV + sqrt (square tempV + 1.0) in
  d1 * ln tempLogArg + d4.

Definition calcForceVelocityInverseCurve (forceVelocityMult : R) : R :=
  (sinh (1.0 / d1 * (forceVelocityMult - d4)) - d3) / d2.

Definition calcPassiveForceMultiplier (m : Muscle)
    (normFiberLength : R) : R :=
  if get_ignore_passive_fiber_force m then 0
  else
    let e0 := get_passive_fiber_strain_at_one_norm_force m in
    let offset := exp (kPE * (m_minNormFiberLength - 1.0) / e0) in
    let denom := exp kPE - offset in
    (exp (kPE * (normFiberLength - 1.0) / e0) - offset) / denom.

Definition calcPassiveForceMultiplierDerivative (m : Muscle)
    (normFiberLength : R) : R :=
  if get_ignore_passive_fiber_force m then 0
  else
    let e0 := get_passive_fiber_strain_at_one_norm_force m in
    let offset := exp (kPE * (m_minNormFiberLength - 1) / e0) in
    (kPE * exp ((kPE * (normFiberLength - 1)) / e0)) /
    (e0 * (exp kPE - offset)).

Definition calcTendonForceMultiplier (m : Muscle)
    (normTendonLength : R) : R :=
  c1 * exp (m_kT m * (normTendonLength - c2)) - c3.

Definition calcTendonForceMultiplierDerivative (m : Muscle)
    (normTendonLength : R) : R :=
  c1 * m_kT m * exp (m_kT m * (normTendonLength - c2)).

Definition calcTendonForceLengthInverseCurve (m : Muscle)
    (normTendonForce : R) : R :=
  ln ((1.0 / c1) * (normTendonForce + c3)) / m_kT m + c2.

(** The four output references of [calcFiberForce]. *)
Record FiberForce : Type := {
  activeFiberForce : R;
  conPassiveFiberForce : R;
  nonConPassiveFiberForce : R;
  totalFiberForce : R
}.

Definition calcFiberForce (m : Muscle)
    (activation activeForceLengthMultiplier forceVelocityMultiplier
     normPassiveFiberForce normFiberVelocity : R) : FiberForce :=
  let maxIsometricForce := get_max_isometric_force m in
  let active :=
    maxIsometricForce *
    (activation * activeForceLengthMultiplier * forceVelocityMultiplier) in
  let conPassive := maxIsometricForce * normPassiveFiberForce in
  let nonConPassive :=
    maxIsometricForce * get_fiber_damping m * normFiberVelocity in
  {| activeFiberForce := active;
     conPassiveFiberForce := conPassive;
     nonConPassiveFiberForce := nonConPassive;
     totalFiberForce := active + conPassive + nonConPassive |}.

Definition calcTendonStiffness (m : Muscle) (normTendonLength : R)
    : SimTK.Real :=
  if get_ignore_tendon_compliance m then Infinity
  else
    Finite ((get_max_isometric_force m / get_tendon_slack_length m) *
            calcTendonForceMultiplierDerivative m normTendonLength).

End DeGrooteFregly2016Muscle.

(** ** The state container and the accessors that use it *)

Module StateModel.

Import SimTK DeGrooteFregly2016Muscle.

(** Modelled from the spec: [SimTK::State] and the [Component], [Actuator]
    and [Model] accessors ([getStateVariableValue], [setStateVariableValue],
    [getStateVariableDerivativeValue], [getDiscreteVariableValue],
    [markCacheVariableInvalid], [getControl], [updControls], [setControls])
    are declared outside the header.  The spec describes the host state
    container as giving get/set access to named state slots, a discrete
    slot for the guessed tendon-force derivative, cache slots, and a
    control/excitation source; the state below has exactly these parts.
    The actuator does not own the storage, it only reads and writes its
    slots. *)
Record State : Type := {
  stateVariables : gmap string R;
  stateVariableDerivatives : gmap string R;
  discreteVariables : gmap string R;
  controls : list R;
  validCacheVariables : gset string
}.

(** Modelled from the spec: the slot names are string constants defined in
    the .cpp file.  The spec gives the two state names; the name of the
    discrete slot is only used as a key. *)
Definition STATE_ACTIVATION_NAME : string := "activation".
Definition STATE_NORMALIZED_TENDON_FORCE_NAME : string :=
  "normalized_tendon_force".
Definition DERIVATIVE_NORMALIZED_TENDON_FORCE_NAME : string :=
  "implicitderiv_normalized_tendon_force".

(** Modelled from the spec: [Component::getStateVariableValue], get access
    to a named state slot. *)
Definition getStateVariableValue (s : State) (name : string) : option R :=
  stateVariables s !! name.

(** Modelled from the spec: [Component::setStateVariableValue], set access
    to a named state slot; nothing else changes. *)
Definition setStateVariableValue (s : State) (name : string) (v : R)
    : State :=
  {| stateVariables := <[name := v]> (stateVariables s);
     stateVariableDerivatives := stateVariableDerivatives s;
     discreteVariables := discreteVariables s;
     controls := controls s;
     validCacheVariables := validCacheVariables s |}.

(** Modelled from the spec: [Component::getStateVariableDerivativeValue],
    the derivative computed for a named state. *)
Definition getStateVariableDerivativeValue (s : State) (name : string)
    : option R :=
  stateVariableDerivatives s !! name.

(** Modelled from the spec: [Component::getDiscreteVariableValue], the
    discrete slot holding the guessed tendon-force derivative. *)
Definition getDiscreteVariableValue (s : State) (name : string)
    : option R :=
  discreteVariables s !! name.

(** Modelled from the spec: [Component::markCacheVariableInvalid], the named
    cache slot stops being valid. *)
Definition markCacheVariableInvalid (s : State) (name : string) : State :=
  {| stateVariables := stateVariables s;
     stateVariableDerivatives := stateVariableDerivatives s;
     discreteVariables := discreteVariables s;
     controls := controls s;
     validCacheVariables := validCacheVariables s ∖ {[ name ]} |}.

(** Modelled from the spec: [ScalarActuator::getControl], this actuator's
    entry of the control/excitation source.  An index outside the vector is
    an error in SimTK; here the read gives [None]. *)
Definition getControl (m : Muscle) (s : State) : option R :=
  controls s !! controlIndex m.

(** Modelled from the spec: [Model::updControls], the model controls held by
    the state. *)
Definition updControls (s : State) : list R := controls s.

(** Modelled from the spec: [Actuator::setControls(actuatorControls,
    modelControls)] copies the actuator's controls into the model controls,
    from its own index on.  An index outside the vector is an error in
    SimTK; here such a write leaves the vector as it is. *)
Definition setControls (m : Muscle) (actuatorControls modelControls : list R)
    : list R :=
  list_inserts (controlIndex m) actuatorControls modelControls.

(** Modelled from the spec: [Model::setControls(s, controls)] stores the
    controls in the state. *)
Definition Model_setControls (s : State) (newControls : list R) : State :=
  {| stateVariables := stateVariables s;
     stateVariableDerivatives := stateVariableDerivatives s;
     discreteVariables := discreteVariables s;
     controls := newControls;
     validCacheVariables := validCacheVariables s |}.

(** *** Accessors defined in the header *)

Definition getActivation (m : Muscle) (s : State) : option R :=
  if get_ignore_activation_dynamics m then getControl m s
  else getStateVariableValue s STATE_ACTIVATION_NAME.

Definition setActivation (m : Muscle) (s : State) (activation : R)
    : State :=
  if get_ignore_activation_dynamics m then
    let controls := updControls s in
    let controls := setControls m [activation] controls in
    Model_setControls s controls
  else setStateVariableValue s STATE_ACTIVATION_NAME activation.

Definition getImplicitEnabledNormalizedTendonForce (m : Muscle) (_ : State)
    : bool :=
  negb (get_ignore_tendon_compliance m) &&
  negb (m_isTendonDynamicsExplicit m).

Definition getNormalizedTendonForceDerivative (m : Muscle) (s : State)
    : option R :=
  if get_ignore_tendon_compliance m then Some 0%R
  else if m_isTendonDynamicsExplicit m then
    getStateVariableDerivativeValue s STATE_NORMALIZED_TENDON_FORCE_NAME
  else
    getDiscreteVariableValue s DERIVATIVE_NORMALIZED_TENDON_FORCE_NAME.

Definition setNormalizedTendonForce (m : Muscle) (s : State)
    (normTendonForce : R) : State :=
  if negb (get_ignore_tendon_compliance m) then
    let s := setStateVariableValue s STATE_NORMALIZED_TENDON_FORCE_NAME
               normTendonForce in
    let s := markCacheVariableInvalid s "lengthInfo" in
    let s := markCacheVariableInvalid s "velInfo" in
    markCacheVariableInvalid s "dynamicsInfo"
  else s.

End StateModel.

(** ** Fixed-point enclosures of the exponential

    The curve constants are decimal numbers and the claims about them are
    numeric, so the values of [exp] at rational arguments are enclosed
    between two fixed-point numbers computed with integers. *)

Module FixedPoint.

Local Open Scope R_scope.

(** The integer [z] stands for the real [z / 2^200]. *)
Definition scale : Z := Eval vm_compute in (2 ^ 200)%Z.
Definition halvings : nat := 70.

Definition of_fix (z : Z) : R := IZR z / IZR scale.

Definition sq_down (z : Z) : Z := ((z * z) / scale)%Z.
Definition sq_up (z : Z) : Z := ((z * z + scale - 1) / scale)%Z.

Fixpoint repeat_sq (sq : Z -> Z) (k : nat) (z : Z) : Z :=
  match k with
  | O => z
  | S k' => repeat_sq sq k' (sq z)
  end.

(** [exp (n/d)] from below: [(1 + (n/d)/2^k)^(2^k)] by [k] squarings, each
    rounded down. *)
Definition exp_lo (n d : Z) : Z :=
  let D := (d * 2 ^ Z.of_nat halvings)%Z in
  repeat_sq sq_down halvings ((scale * (D + n)) / D)%Z.

(** [exp (n/d)] from above: [(1 - (n/d)/2^k)^(-2^k)] by [k] squarings, each
    rounded up. *)
Definition exp_hi (n d : Z) : Z :=
  let D := (d * 2 ^ Z.of_nat halvings)%Z in
  repeat_sq sq_up halvings ((scale * D + (D - n) - 1) / (D - n))%Z.

End FixedPoint.

(** The tolerance used for "equal within floating tolerance": [1e-15], a few
    units in the last place of a double near 1. *)
Definition tolerance : R := (1 / 10 ^ 15)%R.

(** ** Concrete muscles and states used as instances *)

Module Examples.

Import SimTK DeGrooteFregly2016Muscle StateModel.
Local Open Scope R_scope.

(** A muscle with the documented default properties (width scale 1, no
    damping, passive strain 0.6, tendon strain 0.049, explicit compliant
    tendon) and a tendon stiffness coefficient of 35. *)
Definition exampleMuscle : Muscle :=
  {| get_active_force_width_scale := 1;
     get_fiber_damping := 0;
     get_ignore_passive_fiber_force := false;
     get_passive_fiber_strain_at_one_norm_force := 0.6;
     get_tendon_strain_at_one_norm_force := 0.049;
     get_max_isometric_force := 1000;
     get_optimal_fiber_length := 0.1;
     get_tendon_slack_length := 0.2;
     get_ignore_tendon_compliance := false;
     get_ignore_activation_dynamics := false;
     m_kT := 35;
     m_isTendonDynamicsExplicit := true;
     controlIndex := 0 |}.

(** The same muscle with a rigid tendon, no passive fiber force and no
    activation dynamics; its control is the second model control. *)
Definition rigidMuscle : Muscle :=
  {| get_active_force_width_scale := 1;
     get_fiber_damping := 0;
     get_ignore_passive_fiber_force := true;
     get_passive_fiber_strain_at_one_norm_force := 0.6;
     get_tendon_strain_at_one_norm_force := 0.049;
     get_max_isometric_force := 1000;
     get_optimal_fiber_length := 0.1;
     get_tendon_slack_length := 0.2;
     get_ignore_tendon_compliance := true;
     get_ignore_activation_dynamics := true;
     m_kT := 35;
     m_isTendonDynamicsExplicit := true;
     controlIndex := 1 |}.

(** A state of a model with three controls. *)
Definition exampleState : State :=
  {| stateVariables := {[ "activation" := 0.5 ]};
     stateVariableDerivatives := ∅;
     discreteVariables := ∅;
     controls := [0.1; 0.2; 0.3];
     validCacheVariables := {[ "lengthInfo"; "velInfo" ]} |}.

End Examples.

(** ** The remaining calculation methods of the header *)

Module MuscleMechanics.

Import SimTK DeGrooteFregly2016Muscle.
Local Open Scope R_scope.

(** The members computed from the properties in the .cpp file that the
    pennation geometry reads ([m_fiberWidth] is the fiber width, the
    optimal fiber length times the sine of the pennation angle at optimal
    length); they are fields here, like [m_kT]. *)
Record ComputedMembers : Type := {
  m_fiberWidth : R;
  m_squareFiberWidth : R;
  m_maxContractionVelocityInMetersPerSecond : R
}.

Definition getMinNormalizedTendonForce : R := m_minNormTendonForce.
Definition getMaxNormalizedTendonForce : R := m_maxNormTendonForce.

(** The [SimTK::Vec2] of the lower and the upper bound. *)
Definition getBoundsNormalizedTendonForce : R * R :=
  (getMinNormalizedTendonForce, getMaxNormalizedTendonForce).

Definition calcPassiveForceMultiplierIntegral (m : Muscle)
    (normFiberLength : R) : R :=
  if get_ignore_passive_fiber_force m then 0
  else
    let e0 := get_passive_fiber_strain_at_one_norm_force m in
    let temp1 := exp (kPE * m_minNormFiberLength / e0) in
    let denom := exp (kPE * (1.0 + 1.0 / e0)) - temp1 in
    let temp2 := kPE / e0 * normFiberLength in
    (e0 / kPE * exp temp2 - normFiberLength * temp1) / denom.

Definition calcTendonForceMultiplierIntegral (m : Muscle)
    (normTendonLength : R) : R :=
  (c1 * exp (- m_kT m * (c2 - normTendonLength))) / m_kT m -
  c3 * normTendonLength.

Definition calcTendonForceLengthInverseCurveDerivative (m : Muscle)
    (derivNormTendonForce normTendonLength : R) : R :=
  derivNormTendonForce /
  (c1 * m_kT m * exp (m_kT m * (normTendonLength - c2))).

Definition calcFiberStiffness (m : Muscle)
    (activation normFiberLength fiberVelocityMultiplier : R) : R :=
  let partialNormFiberLengthPartialFiberLength :=
    1.0 / get_optimal_fiber_length m in
  let partialNormActiveForcePartialFiberLength :=
    partialNormFiberLengthPartialFiberLength *
    calcActiveForceLengthMultiplierDerivative m normFiberLength in
  let partialNormPassiveForcePartialFiberLength :=
    partialNormFiberLengthPartialFiberLength *
    calcPassiveForceMultiplierDerivative m normFiberLength in
  get_max_isometric_force m *
  (activation * partialNormActiveForcePartialFiberLength *
     fiberVelocityMultiplier +
   partialNormPassiveForcePartialFiberLength).

(** The stiffnesses are finite reals here; with a rigid tendon the tendon
    stiffness argument is not read. *)
Definition calcMuscleStiffness (m : Muscle)
    (tendonStiffness fiberStiffnessAlongTendon : R) : R :=
  if get_ignore_tendon_compliance m then fiberStiffnessAlongTendon
  else
    (fiberStiffnessAlongTendon * tendonStiffness) /
    (fiberStiffnessAlongTendon + tendonStiffness).

Definition calcPartialPennationAnglePartialFiberLength (c : ComputedMembers)
    (fiberLength : R) : R :=
  (- m_fiberWidth c / square fiberLength) /
  sqrt (1.0 - square (m_fiberWidth c / fiberLength)).

Definition calcPartialFiberForceAlongTendonPartialFiberLength
    (fiberForce fiberStiffness sinPennationAngle cosPennationAngle
     partialPennationAnglePartialFiberLength : R) : R :=
  let partialCosPennationAnglePartialFiberLength :=
    - sinPennationAngle * partialPennationAnglePartialFiberLength in
  fiberStiffness * cosPennationAngle +
  fiberForce * partialCosPennationAnglePartialFiberLength.

Definition calcFiberStiffnessAlongTendon
    (fiberLength partialFiberForceAlongTendonPartialFiberLength
     sinPennationAngle cosPennationAngle
     partialPennationAnglePartialFiberLength : R) : R :=
  let partialFiberLengthAlongTendonPartialFiberLength :=
    cosPennationAngle -
    fiberLength * sinPennationAngle *
    partialPennationAnglePartialFiberLength in
  partialFiberForceAlongTendonPartialFiberLength *
  (1.0 / partialFiberLengthAlongTendonPartialFiberLength).

Definition calcPartialTendonLengthPartialFiberLength
    (fiberLength sinPennationAngle cosPennationAngle
     partialPennationAnglePartialFiberLength : R) : R :=
  fiberLength * sinPennationAngle *
  partialPennationAnglePartialFiberLength -
  cosPennationAngle.

Definition calcPartialTendonForcePartialFiberLength (c : ComputedMembers)
    (tendonStiffness fiberLength sinPennationAngle cosPennationAngle : R)
    : R :=
  let partialPennationAnglePartialFiberLength :=
    calcPartialPennationAnglePartialFiberLength c fiberLength in
  let partialTendonLengthPartialFiberLength :=
    calcPartialTendonLengthPartialFiberLength fiberLength
      sinPennationAngle cosPennationAngle
      partialPennationAnglePartialFiberLength in
  tendonStiffness * partialTendonLengthPartialFiberLength.

Definition calcEquilibriumResidual
    (tendonForce fiberForceAlongTendon : R) : R :=
  tendonForce - fiberForceAlongTendon.

Definition calcLinearizedEquilibriumResidualDerivative
    (muscleTendonVelocity fiberVelocityAlongTendon tendonStiffness
     fiberStiffnessAlongTendon : R) : R :=
  fiberStiffnessAlongTendon * fiberVelocityAlongTendon -
  tendonStiffness * (muscleTendonVelocity - fiberVelocityAlongTendon).

End MuscleMechanics.

(** ** The normalized tendon force accessor *)

Module StateModelRest.

Import SimTK DeGrooteFregly2016Muscle StateModel.

Section TendonForce.

(** [Muscle::getTendonForce] reads the dynamics info cached by the base
    class, which is outside the header; it is a parameter here. *)
Variable getTendonForce : State -> R.

Definition getNormalizedTendonForce (m : Muscle) (s : State) : option R :=
  if get_ignore_tendon_compliance m then
    Some (getTendonForce s / get_max_isometric_force m)%R
  else getStateVariableValue s STATE_NORMALIZED_TENDON_FORCE_NAME.

End TendonForce.

End StateModelRest.


(** ** Model operators (Moco/ModelOperators.h) *)

Module ModelOperators.

Import SimTK DeGrooteFregly2016Muscle.

(** The generated property setters of a muscle ([set_<property>(value)]). *)
Definition set_ignore_activation_dynamics (m : Muscle) (value : bool)
    : Muscle :=
  {| get_active_force_width_scale := get_active_force_width_scale m;
     get_fiber_damping := get_fiber_damping m;
     get_ignore_passive_fiber_force := get_ignore_passive_fiber_force m;
     get_passive_fiber_strain_at_one_norm_force :=
       get_passive_fiber_strain_at_one_norm_force m;
     get_tendon_strain_at_one_norm_force :=
       get_tendon_strain_at_one_norm_force m;
     get_max_isometric_force := get_max_isometric_force m;
     get_optimal_fiber_length := get_optimal_fiber_length m;
     get_tendon_slack_length := get_tendon_slack_length m;
     get_ignore_tendon_compliance := get_ignore_tendon_compliance m;
     get_ignore_activation_dynamics := value;
     m_kT := m_kT m;
     m_isTendonDynamicsExplicit := m_isTendonDynamicsExplicit m;
     controlIndex := controlIndex m |}.

Definition set_ignore_tendon_compliance (m : Muscle) (value : bool)
    : Muscle :=
  {| get_active_force_width_scale := get_active_force_width_scale m;
     get_fiber_damping := get_fiber_damping m;
     get_ignore_passive_fiber_force := get_ignore_passive_fiber_force m;
     get_passive_fiber_strain_at_one_norm_force :=
       get_passive_fiber_strain_at_one_norm_force m;
     get_tendon_strain_at_one_norm_force :=
       get_tendon_strain_at_one_norm_force m;
     get_max_isometric_force := get_max_isometric_force m;
     get_optimal_fiber_length := get_optimal_fiber_length m;
     get_tendon_slack_length := get_tendon_slack_length m;
     get_ignore_tendon_compliance := value;
     get_ignore_activation_dynamics := get_ignore_activation_dynamics m;
     m_kT := m_kT m;
     m_isTendonDynamicsExplicit := m_isTendonDynamicsExplicit m;
     controlIndex := controlIndex m |}.

Definition set_ignore_passive_fiber_force (m : Muscle) (value : bool)
    : Muscle :=
  {| get_active_force_width_scale := get_active_force_width_scale m;
     get_fiber_damping := get_fiber_damping m;
     get_ignore_passive_fiber_force := value;
     get_passive_fiber_strain_at_one_norm_force :=
       get_passive_fiber_strain_at_one_norm_force m;
     get_tendon_strain_at_one_norm_force :=
       get_tendon_strain_at_one_norm_force m;
     get_max_isometric_force := get_max_isometric_force m;
     get_optimal_fiber_length := get_optimal_fiber_length m;
     get_tendon_slack_length := get_tendon_slack_length m;
     get_ignore_tendon_compliance := get_ignore_tendon_compliance m;
     get_ignore_activation_dynamics := get_ignore_activation_dynamics m;
     m_kT := m_kT m;
     m_isTendonDynamicsExplicit := m_isTendonDynamicsExplicit m;
     controlIndex := controlIndex m |}.

Definition set_active_force_width_scale (m : Muscle) (value : R) : Muscle :=
  {| get_active_force_width_scale := value;
     get_fiber_damping := get_fiber_damping m;
     get_ignore_passive_fiber_force := get_ignore_passive_fiber_force m;
     get_passive_fiber_strain_at_one_norm_force :=
       get_passive_fiber_strain_at_one_norm_force m;
     get_tendon_strain_at_one_norm_force :=
       get_tendon_strain_at_one_norm_force m;
     get_max_isometric_force := get_max_isometric_force m;
     get_optimal_fiber_length := get_optimal_fiber_length m;
     get_tendon_slack_length := get_tendon_slack_length m;
     get_ignore_tendon_compliance := get_ignore_tendon_compliance m;
     get_ignore_activation_dynamics := get_ignore_activation_dynamics m;
     m_kT := m_kT m;
     m_isTendonDynamicsExplicit := m_isTendonDynamicsExplicit m;
     controlIndex := controlIndex m |}.

(** [Model] is declared outside the files at hand.  The operators only use
    its component lists, so a model is the list of its components: a
    [DeGrooteFregly2016Muscle], a muscle of another class (of which only the
    two [Muscle] properties the operators write are kept), or a component
    that is not a muscle. *)
Inductive Component : Type :=
| DeGrooteFreglyMuscle (m : Muscle)
| OtherMuscle (ignore_tendon_compliance ignore_activation_dynamics : bool)
| OtherComponent (name : string).

Definition Model : Type := list Component.

Section Operators.

(** [Model::finalizeFromProperties] is outside the files at hand. *)
Variable finalizeFromProperties : Model -> Model.

(** [ModOpIgnoreActivationDynamics::operate]: the loop runs over
    [updComponentList<Muscle>()], the muscles of every class. *)
Definition ModOpIgnoreActivationDynamics_operate (model : Model) : Model :=
  let model := finalizeFromProperties model in
  map (fun component =>
         match component with
         | DeGrooteFreglyMuscle muscle =>
             DeGrooteFreglyMuscle (set_ignore_activation_dynamics muscle true)
         | OtherMuscle tendon _ => OtherMuscle tendon true
         | OtherComponent _ => component
         end) model.

Definition ModOpIgnoreTendonCompliance_operate (model : Model) : Model :=
  let model := finalizeFromProperties model in
  map (fun component =>
         match component with
         | DeGrooteFreglyMuscle muscle =>
             DeGrooteFreglyMuscle (set_ignore_tendon_compliance muscle true)
         | OtherMuscle _ activation => OtherMuscle true activation
         | OtherComponent _ => component
         end) model.

(** [ModOpIgnorePassiveFiberForces::operate]: the loop runs over
    [updComponentList<DeGrooteFregly2016Muscle>()] only. *)
Definition ModOpIgnorePassiveFiberForces_operate (model : Model) : Model :=
  let model := finalizeFromProperties model in
  map (fun component =>
         match component with
         | DeGrooteFreglyMuscle muscle =>
             DeGrooteFreglyMuscle (set_ignore_passive_fiber_force muscle true)
         | _ => component
         end) model.

(** [ModOpScaleActiveFiberForceCurveWidth::operate], for an operator whose
    [scale_factor] property is [scale_factor]. *)
Definition ModOpScaleActiveFiberForceCurveWidth_operate (scale_factor : R)
    (model : Model) : Model :=
  let model := finalizeFromProperties model in
  map (fun component =>
         match component with
         | DeGrooteFreglyMuscle muscle =>
             DeGrooteFreglyMuscle
               (set_active_force_width_scale muscle scale_factor)
         | _ => component
         end) model.

End Operators.

(** A model with one DeGrooteFregly2016Muscle, one muscle of another class
    and one component that is not a muscle. *)
Definition exampleModel : Model :=
  [ DeGrooteFreglyMuscle Examples.exampleMuscle;
    OtherMuscle false false;
    OtherComponent "ground" ].

End ModelOperators.

(** ** The active force-length curve in binary64 arithmetic

    The same source functions as in [DeGrooteFregly2016Muscle], with
    [double] as IEEE 754 binary64: every decimal literal is the double
    nearest to it, every operation is rounded on its own (no fused
    multiply-add), a quotient by zero is an infinity or a NaN.  [exp] is
    the function of the C library, a variable of the section. *)

Module Binary64.

Import Floats.
Local Open Scope float_scope.
#[local] Set Warnings "-inexact-float".

Definition square (x : float) : float := x * x.
Definition cube (x : float) : float := x * x * x.

Definition b11 : float := 0.8150671134243542.
Definition b21 : float := 1.055033428970575.
Definition b31 : float := 0.162384573599574.
Definition b41 : float := 0.063303448465465.
Definition b12 : float := 0.433004984392647.
Definition b22 : float := 0.716775413397760.
Definition b32 : float := -0.029947116970696.
Definition b42 : float := 0.200356847296188.
Definition b13 : float := 0.1.
Definition b23 : float := 1.0.
Definition b33 : float := 0.353553390593274.
Definition b43 : float := 0.0.

Definition m_minNormFiberLength : float := 0.2.
Definition m_maxNormFiberLength : float := 1.8.

Section Libm.

(** [exp] of [<cmath>]. *)
Variable exp : float -> float.

Definition calcGaussianLikeCurve (x b1 b2 b3 b4 : float) : float :=
  b1 * exp (-0.5 * square (x - b2) / square (b3 + b4 * x)).

Definition calcGaussianLikeCurveDerivative (x b1 b2 b3 b4 : float) : float :=
  (b1 * exp (- square (b2 - x) / (2 * square (b3 + b4 * x))) *
     (b2 - x) * (b3 + b2 * b4)) /
  cube (b3 + b4 * x).

(** [scale] is the property [active_force_width_scale]. *)
Definition calcActiveForceLengthMultiplier (scale normFiberLength : float)
    : float :=
  let x := (normFiberLength - 1.0) / scale + 1.0 in
  calcGaussianLikeCurve x b11 b21 b31 b41 +
  calcGaussianLikeCurve x b12 b22 b32 b42 +
  calcGaussianLikeCurve x b13 b23 b33 b43.

Definition calcActiveForceLengthMultiplierDerivative
    (scale normFiberLength : float) : float :=
  let x := (normFiberLength - 1.0) / scale + 1.0 in
  (1.0 / scale) *
  (calcGaussianLikeCurveDerivative x b11 b21 b31 b41 +
   calcGaussianLikeCurveDerivative x b12 b22 b32 b42 +
   calcGaussianLikeCurveDerivative x b13 b23 b33 b43).

End Libm.

(** The double at which [b31 + b41 * x], the divisor of the first lobe,
    evaluates to zero. *)
Definition firstLobePole : float := -2.565177372416961.

(** A width scale and a normalized fiber length between the bounds 0.2 and
    1.8 whose shifted argument [(x - 1.0) / scale + 1.0] is
    [firstLobePole]. *)
Definition narrowWidthScale : float := 0.1.
Definition narrowWidthLength : float := 0.6434822627583039.

(** A function with the values of the C library's [exp] at the two
    infinities (C99 F.9.3.1: [exp(-inf)] is [+0], [exp(+inf)] is [+inf]);
    an instance for the hypothesis on [exp]. *)
Definition expAtInfinities (x : float) : float :=
  if (x =? neg_infinity) then 0
  else if (x =? infinity) then infinity
  else 1.

End Binary64.

(** ** Soundness of the fixed-point enclosures *)

Module ExpBounds.

Import FixedPoint.
Local Open Scope R_scope.

Lemma scale_pos : (0 < scale)%Z.
Proof. reflexivity. Qed.

Lemma IZR_scale_pos : 0 < IZR scale.
Proof. apply IZR_lt. exact scale_pos. Qed.

Lemma exp_double (y : R) : exp (2 * y) = exp y * exp y.
Proof. replace (2 * y) with (y + y) by lra. apply exp_plus. Qed.

Lemma sq_down_sound (z : Z) (y : R) :
  (0 <= z)%Z -> of_fix z <= exp y ->
  (0 <= sq_down z)%Z /\ of_fix (sq_down z) <= exp (2 * y).
Proof.
  intros Hz Hle. pose proof scale_pos as Hs. pose proof IZR_scale_pos as HS.
  split.
  - apply Z.div_pos; [apply Z.mul_nonneg_nonneg; assumption | assumption].
  - assert (Hfloor : (scale * sq_down z <= z * z)%Z)
      by (apply Z.mul_div_le; assumption).
    apply IZR_le in Hfloor. rewrite !mult_IZR in Hfloor.
    assert (H0 : 0 <= of_fix z).
    { unfold of_fix. apply Rmult_le_pos; [apply IZR_le; assumption|].
      left. apply Rinv_0_lt_compat. assumption. }
    apply Rle_trans with (of_fix z * of_fix z).
    + unfold of_fix. apply Rmult_le_reg_r with (IZR scale * IZR scale).
      * apply Rmult_lt_0_compat; assumption.
      * field_simplify; [|lra|lra]. lra.
    + rewrite exp_double. apply Rmult_le_compat; assumption.
Qed.

Lemma sq_up_sound (z : Z) (y : R) :
  exp y <= of_fix z -> exp (2 * y) <= of_fix (sq_up z).
Proof.
  intros Hle. pose proof scale_pos as Hs. pose proof IZR_scale_pos as HS.
  assert (Hceil : (z * z <= scale * sq_up z)%Z).
  { unfold sq_up.
    pose proof (Z.mul_succ_div_gt (z * z + scale - 1) scale Hs). lia. }
  apply IZR_le in Hceil. rewrite !mult_IZR in Hceil.
  pose proof (exp_pos y) as Hy.
  apply Rle_trans with (of_fix z * of_fix z).
  - rewrite exp_double. apply Rmult_le_compat; lra.
  - unfold of_fix. apply Rmult_le_reg_r with (IZR scale * IZR scale).
    + apply Rmult_lt_0_compat; assumption.
    + field_simplify; [|lra|lra]. lra.
Qed.

Lemma repeat_sq_down_sound (k : nat) : forall (z : Z) (y : R),
  (0 <= z)%Z -> of_fix z <= exp y ->
  of_fix (repeat_sq sq_down k z) <= exp (2 ^ k * y).
Proof.
  induction k as [|k IH]; intros z y Hz Hle; simpl.
  - rewrite Rmult_1_l. exact Hle.
  - destruct (sq_down_sound z y Hz Hle) as [Hz' Hle'].
    replace (2 * 2 ^ k * y) with (2 ^ k * (2 * y)) by ring.
    apply IH; assumption.
Qed.

Lemma repeat_sq_up_sound (k : nat) : forall (z : Z) (y : R),
  exp y <= of_fix z ->
  exp (2 ^ k * y) <= of_fix (repeat_sq sq_up k z).
Proof.
  induction k as [|k IH]; intros z y Hle; simpl.
  - rewrite Rmult_1_l. exact Hle.
  - replace (2 * 2 ^ k * y) with (2 ^ k * (2 * y)) by ring.
    apply IH. apply sq_up_sound. exact Hle.
Qed.

Lemma pow2_IZR (k : nat) : IZR (2 ^ Z.of_nat k) = 2 ^ k.
Proof. rewrite <- pow_IZR. reflexivity. Qed.

Theorem exp_lo_sound (n d : Z) :
  (0 < d)%Z -> (0 <= d * 2 ^ Z.of_nat halvings + n)%Z ->
  of_fix (exp_lo n d) <= exp (IZR n / IZR d).
Proof.
  intros Hd Hn. unfold exp_lo.
  set (D := (d * 2 ^ Z.of_nat halvings)%Z) in *.
  assert (HD : (0 < D)%Z) by (subst D; apply Z.mul_pos_pos; [assumption | apply Z.pow_pos_nonneg; lia]).
  assert (HDR : 0 < IZR D) by (apply IZR_lt; assumption).
  assert (HdR : 0 < IZR d) by (apply IZR_lt; assumption).
  pose proof scale_pos as Hs. pose proof IZR_scale_pos as HS.
  assert (Hk : 0 < 2 ^ halvings) by (apply pow_lt; lra).
  replace (IZR n / IZR d) with (2 ^ halvings * (IZR n / IZR D)).
  2:{ subst D. rewrite mult_IZR, pow2_IZR. field. split; lra. }
  apply repeat_sq_down_sound.
  - apply Z.div_pos; [|assumption]. apply Z.mul_nonneg_nonneg; lia.
  - apply Rle_trans with (1 + IZR n / IZR D); [|apply exp_ineq1_le].
    assert (Hfloor : (D * ((scale * (D + n)) / D) <= scale * (D + n))%Z)
      by (apply Z.mul_div_le; assumption).
    apply IZR_le in Hfloor. rewrite !mult_IZR, plus_IZR in Hfloor.
    unfold of_fix. apply Rmult_le_reg_r with (IZR scale * IZR D).
    + apply Rmult_lt_0_compat; assumption.
    + field_simplify; [|lra|lra]. lra.
Qed.

Theorem exp_hi_sound (n d : Z) :
  (0 < d)%Z -> (0 < d * 2 ^ Z.of_nat halvings - n)%Z ->
  exp (IZR n / IZR d) <= of_fix (exp_hi n d).
Proof.
  intros Hd Hn. unfold exp_hi.
  set (D := (d * 2 ^ Z.of_nat halvings)%Z) in *.
  assert (HD : (0 < D)%Z) by (subst D; apply Z.mul_pos_pos; [assumption | apply Z.pow_pos_nonneg; lia]).
  assert (HDR : 0 < IZR D) by (apply IZR_lt; assumption).
  assert (HdR : 0 < IZR d) by (apply IZR_lt; assumption).
  assert (HDn : 0 < IZR D - IZR n) by (rewrite <- minus_IZR; apply IZR_lt; assumption).
  pose proof scale_pos as Hs. pose proof IZR_scale_pos as HS.
  replace (IZR n / IZR d) with (2 ^ halvings * (IZR n / IZR D)).
  2:{ subst D. rewrite mult_IZR, pow2_IZR. assert (0 < 2 ^ halvings) by (apply pow_lt; lra). field. split; lra. }
  apply repeat_sq_up_sound.
  set (q := ((scale * D + (D - n) - 1) / (D - n))%Z).
  assert (Hceil : (scale * D <= (D - n) * q)%Z).
  { subst q. pose proof (Z.mul_succ_div_gt (scale * D + (D - n) - 1) (D - n) Hn). lia. }
  apply IZR_le in Hceil. rewrite !mult_IZR, minus_IZR in Hceil.
  (* exp y <= 1 / (1 - y) *)
  set (y := IZR n / IZR D).
  assert (Hy : 0 < 1 - y).
  { unfold y. apply Rmult_lt_reg_r with (IZR D); [assumption|]. field_simplify; lra. }
  apply Rle_trans with (/ (1 - y)).
  - pose proof (exp_ineq1_le (- y)) as H1. rewrite exp_Ropp in H1.
    pose proof (exp_pos y) as Hp.
    rewrite <- (Rinv_inv (exp y)).
    apply Rinv_le_contravar; lra.
  - unfold of_fix, y. apply Rmult_le_reg_r with (IZR scale * (IZR D - IZR n)).
    + apply Rmult_lt_0_compat; assumption.
    + field_simplify; [|lra|lra]. lra.
Qed.

(** Enclosing a logarithm and a square root between rationals. *)

Lemma ln_between (a b y : R) :
  exp a <= y -> y <= exp b -> a <= ln y <= b.
Proof.
  intros Ha Hb.
  assert (Hy : 0 < y) by (pose proof (exp_pos a); lra).
  split.
  - destruct Ha as [Ha | Ha].
    + left. rewrite <- (ln_exp a).
      apply ln_increasing; [apply exp_pos | exact Ha].
    + right. rewrite <- Ha. symmetry. apply ln_exp.
  - destruct Hb as [Hb | Hb].
    + left. rewrite <- (ln_exp b). apply ln_increasing; assumption.
    + right. rewrite Hb. apply ln_exp.
Qed.

Lemma sqrt_between (l u x : R) :
  0 <= l -> 0 <= u -> l * l <= x -> x <= u * u -> l <= sqrt x <= u.
Proof.
  intros Hl Hu Hlx Hxu.
  assert (Hx : 0 <= x) by nra.
  split.
  - rewrite <- (sqrt_square l Hl). apply sqrt_le_1_alt. exact Hlx.
  - rewrite <- (sqrt_square u Hu). apply sqrt_le_1_alt. exact Hxu.
Qed.

Lemma Rabs_le_between (a b : R) : Rabs a <= b -> - b <= a <= b.
Proof.
  unfold Rabs. destruct (Rcase_abs a); intros H; lra.
Qed.

Lemma exp_enclosure (n d : Z) :
  (0 < d)%Z ->
  (0 <= d * 2 ^ Z.of_nat halvings + n)%Z ->
  (0 < d * 2 ^ Z.of_nat halvings - n)%Z ->
  of_fix (exp_lo n d) <= exp (IZR n / IZR d) <= of_fix (exp_hi n d).
Proof.
  intros Hd Hlo Hhi.
  split; [apply exp_lo_sound | apply exp_hi_sound]; assumption.
Qed.

End ExpBounds.

(** [enclose_exp n d H] evaluates the integer enclosure of [exp (n/d)] and
    adds it to the context as two inequalities between rationals. *)
Ltac enclose_exp n d H :=
  let lo := eval vm_compute in (FixedPoint.exp_lo n d) in
  let hi := eval vm_compute in (FixedPoint.exp_hi n d) in
  assert (H : (IZR lo / IZR FixedPoint.scale <= exp (IZR n / IZR d)
               <= IZR hi / IZR FixedPoint.scale)%R);
  [ replace lo with (FixedPoint.exp_lo n d) by (vm_compute; reflexivity);
    replace hi with (FixedPoint.exp_hi n d) by (vm_compute; reflexivity);
    apply ExpBounds.exp_enclosure; vm_compute; congruence
  | unfold FixedPoint.scale in H ].

(** ** The curve library *)

Module CurveLemmas.

Import SimTK DeGrooteFregly2016Muscle FixedPoint ExpBounds Examples.
Local Open Scope R_scope.

(** *** Tendon force-length curve *)

(** C9: [calcTendonForceMultiplier(1.0)] is exactly 0 for every [kT], since
    [c1 = c3] and [c2 = 1]: the curve passes through (1, 0). *)
Theorem calcTendonForceMultiplier_at_slack_length (m : Muscle) :
  calcTendonForceMultiplier m 1.0 = 0.
Proof.
  unfold calcTendonForceMultiplier, c1, c2, c3.
  replace (m_kT m * (1.0 - 1.0)) with 0 by lra.
  rewrite exp_0. lra.
Qed.

(** C3: the inverse tendon force-length curve undoes the forward curve at
    every normalized tendon length (in particular on the physiological
    domain), for a tendon stiffness coefficient [kT <> 0]. *)
Theorem tendon_force_length_round_trip (m : Muscle) (x : R) :
  m_kT m <> 0 ->
  calcTendonForceLengthInverseCurve m (calcTendonForceMultiplier m x) = x.
Proof.
  intros HkT.
  unfold calcTendonForceLengthInverseCurve, calcTendonForceMultiplier.
  replace (1.0 / c1 * (c1 * exp (m_kT m * (x - c2)) - c3 + c3))
    with (exp (m_kT m * (x - c2))) by (unfold c1, c3; lra).
  rewrite ln_exp. field. exact HkT.
Qed.

Lemma tendon_force_length_round_trip_witness :
  m_kT exampleMuscle <> 0 /\
  calcTendonForceLengthInverseCurve exampleMuscle
    (calcTendonForceMultiplier exampleMuscle 1.02) = 1.02.
Proof.
  split.
  - simpl. lra.
  - apply (tendon_force_length_round_trip exampleMuscle 1.02). simpl. lra.
Defined.

(** *** Passive force-length curve *)

Lemma passive_denominator_pos (e0 : R) :
  0 < e0 -> 0 < exp kPE - exp (kPE * (m_minNormFiberLength - 1.0) / e0).
Proof.
  intros He0.
  assert (H : kPE * (m_minNormFiberLength - 1.0) / e0 < kPE).
  { unfold kPE, m_minNormFiberLength.
    apply Rlt_trans with 0; [|lra].
    apply Rmult_lt_reg_r with e0; [exact He0|].
    unfold Rdiv. rewrite Rmult_assoc, Rinv_l by lra. lra. }
  apply exp_increasing in H. lra.
Qed.

Lemma passive_increasing (m : Muscle) (x y : R) :
  get_ignore_passive_fiber_force m = false ->
  0 < get_passive_fiber_strain_at_one_norm_force m ->
  x < y ->
  calcPassiveForceMultiplier m x < calcPassiveForceMultiplier m y.
Proof.
  intros Hign He0 Hxy. unfold calcPassiveForceMultiplier. rewrite Hign.
  set (e0 := get_passive_fiber_strain_at_one_norm_force m) in *.
  pose proof (passive_denominator_pos e0 He0) as Hden.
  apply Rmult_lt_compat_r; [apply Rinv_0_lt_compat; exact Hden|].
  apply Rplus_lt_compat_r. apply exp_increasing.
  apply Rmult_lt_compat_r; [apply Rinv_0_lt_compat; exact He0|].
  unfold kPE. lra.
Qed.

(** C4: with passive force enabled and [e0 > 0] the passive multiplier is 0
    at the minimum normalized fiber length 0.2 and strictly increasing from
    there on; with [ignore_passive_fiber_force] it is 0 at every input. *)
Theorem calcPassiveForceMultiplier_zero_and_increasing (m : Muscle) :
  (get_ignore_passive_fiber_force m = false ->
   0 < get_passive_fiber_strain_at_one_norm_force m ->
   calcPassiveForceMultiplier m 0.2 = 0 /\
   forall x y : R, 0.2 <= x -> x < y ->
     calcPassiveForceMultiplier m x < calcPassiveForceMultiplier m y) /\
  (get_ignore_passive_fiber_force m = true ->
   forall x : R, calcPassiveForceMultiplier m x = 0).
Proof.
  split.
  - intros Hign He0. split.
    + unfold calcPassiveForceMultiplier. rewrite Hign.
      unfold m_minNormFiberLength, Rdiv.
      rewrite Rminus_diag. apply Rmult_0_l.
    + intros x y _ Hxy. apply passive_increasing; assumption.
  - intros Hign x. unfold calcPassiveForceMultiplier. rewrite Hign.
    reflexivity.
Qed.

Lemma calcPassiveForceMultiplier_zero_and_increasing_witness :
  get_ignore_passive_fiber_force exampleMuscle = false /\
  0 < get_passive_fiber_strain_at_one_norm_force exampleMuscle /\
  calcPassiveForceMultiplier exampleMuscle 0.2 = 0 /\
  calcPassiveForceMultiplier exampleMuscle 0.2 <
    calcPassiveForceMultiplier exampleMuscle 1.
Proof.
  assert (He0 : 0 < get_passive_fiber_strain_at_one_norm_force exampleMuscle)
    by (simpl; lra).
  destruct (calcPassiveForceMultiplier_zero_and_increasing exampleMuscle)
    as [Hon _].
  destruct (Hon eq_refl He0) as [Hzero Hinc].
  split; [reflexivity|]. split; [exact He0|]. split; [exact Hzero|].
  apply Hinc; lra.
Defined.

(** *** Force-velocity curve *)

Lemma force_velocity_inverse_of_forward (v : R) :
  calcForceVelocityInverseCurve (calcForceVelocityMultiplier v) = v.
Proof.
  unfold calcForceVelocityInverseCurve, calcForceVelocityMultiplier.
  set (t := d2 * v + d3).
  replace (1.0 / d1 * (d1 * ln (t + sqrt (square t + 1.0)) + d4 - d4))
    with (arcsinh t).
  - rewrite sinh_arcsinh. unfold t, d2, d3. field. lra.
  - unfold arcsinh, square. replace (t ^ 2 + 1) with (t * t + 1.0) by lra.
    unfold d1. lra.
Qed.

Lemma log_argument_at_minus_one :
  2.7481708235462814701 <= ln (7.775 + sqrt (7.775 * 7.775 + 1.0))
    <= 2.7481708235462814702.
Proof.
  assert (Hs : 7.8390449035580858828439 <= sqrt (7.775 * 7.775 + 1.0)
               <= 7.8390449035580858828440)
    by (apply sqrt_between; lra).
  enclose_exp 27481708235462814701%Z 10000000000000000000%Z Ha.
  enclose_exp 27481708235462814702%Z 10000000000000000000%Z Hb.
  replace 2.7481708235462814701
    with (IZR 27481708235462814701 / IZR 10000000000000000000) by lra.
  replace 2.7481708235462814702
    with (IZR 27481708235462814702 / IZR 10000000000000000000) by lra.
  apply ln_between; lra.
Qed.

Lemma log_argument_at_zero :
  -0.3657881212217353861 <= ln (-0.374 + sqrt (-0.374 * -0.374 + 1.0))
    <= -0.3657881212217353860.
Proof.
  assert (Hs : 1.0676497553036763563476 <= sqrt (-0.374 * -0.374 + 1.0)
               <= 1.0676497553036763563477)
    by (apply sqrt_between; lra).
  enclose_exp (-3657881212217353861)%Z 10000000000000000000%Z Ha.
  enclose_exp (-3657881212217353860)%Z 10000000000000000000%Z Hb.
  replace (-0.3657881212217353861)
    with (IZR (-3657881212217353861) / IZR 10000000000000000000) by lra.
  replace (-0.3657881212217353860)
    with (IZR (-3657881212217353860) / IZR 10000000000000000000) by lra.
  apply ln_between; lra.
Qed.

Lemma force_velocity_at_minus_one :
  Rabs (calcForceVelocityMultiplier (-1)) <= tolerance.
Proof.
  unfold calcForceVelocityMultiplier, square, d1, d2, d3, d4, tolerance.
  replace (-8.149 * -1 + -0.374) with 7.775 by lra.
  pose proof log_argument_at_minus_one as H.
  apply Rabs_le. lra.
Qed.

Lemma force_velocity_at_zero :
  Rabs (calcForceVelocityMultiplier 0 - 1) <= tolerance.
Proof.
  unfold calcForceVelocityMultiplier, square, d1, d2, d3, d4, tolerance.
  replace (-8.149 * 0 + -0.374) with (-0.374) by lra.
  pose proof log_argument_at_zero as H.
  apply Rabs_le. lra.
Qed.

(** C1: the inverse force-velocity curve undoes the force-velocity multiplier
    at every normalized fiber velocity in [-1, 1], and with the constants
    [d1..d4] the multiplier is 0 at -1 and 1 at 0 within the tolerance. *)
Theorem force_velocity_round_trip_and_key_points :
  (forall v : R, -1 <= v <= 1 ->
     calcForceVelocityInverseCurve (calcForceVelocityMultiplier v) = v) /\
  Rabs (calcForceVelocityMultiplier (-1) - 0) <= tolerance /\
  Rabs (calcForceVelocityMultiplier 0 - 1) <= tolerance.
Proof.
  split; [|split].
  - intros v _. apply force_velocity_inverse_of_forward.
  - rewrite Rminus_0_r. apply force_velocity_at_minus_one.
  - apply force_velocity_at_zero.
Qed.

Lemma force_velocity_round_trip_and_key_points_witness :
  -1 <= 0.5 <= 1 /\
  calcForceVelocityInverseCurve (calcForceVelocityMultiplier 0.5) = 0.5.
Proof.
  assert (Hv : -1 <= 0.5 <= 1) by lra.
  split; [exact Hv|].
  exact (proj1 force_velocity_round_trip_and_key_points 0.5 Hv).
Defined.

(** *** Active force-length curve *)

Lemma lobe1_exponential_at_one :
  0.97070684357491532362 <=
  exp (IZR (-3028678304259323704215830625) /
       IZR 101870166607259061059892143042) <= 0.97070684357491532363.
Proof.
  enclose_exp (-3028678304259323704215830625)%Z
              101870166607259061059892143042%Z H.
  lra.
Qed.

Lemma lobe2_exponential_at_one :
  0.25128758085486681734 <=
  exp (IZR (-2506755201750304553374156800) /
       IZR 1814967261850431736266565129) <= 0.25128758085486681735.
Proof.
  enclose_exp (-2506755201750304553374156800)%Z
              1814967261850431736266565129%Z H.
  lra.
Qed.

Lemma active_force_length_argument_at_one (s : R) :
  (1.0 - 1.0) / s + 1.0 = 1.
Proof.
  replace (1.0 - 1.0) with 0 by lra. unfold Rdiv. rewrite Rmult_0_l. lra.
Qed.

Lemma active_force_length_at_one (m : Muscle) :
  Rabs (calcActiveForceLengthMultiplier m 1.0 - 1.0) <= tolerance.
Proof.
  unfold calcActiveForceLengthMultiplier.
  rewrite active_force_length_argument_at_one.
  unfold calcGaussianLikeCurve, square.
  replace (-0.5 * ((1 - b21) * (1 - b21)) /
           ((b31 + b41 * 1) * (b31 + b41 * 1)))
    with (IZR (-3028678304259323704215830625) /
          IZR 101870166607259061059892143042)
    by (unfold b21, b31, b41; lra).
  replace (-0.5 * ((1 - b22) * (1 - b22)) /
           ((b32 + b42 * 1) * (b32 + b42 * 1)))
    with (IZR (-2506755201750304553374156800) /
          IZR 1814967261850431736266565129)
    by (unfold b22, b32, b42; lra).
  replace (-0.5 * ((1 - b23) * (1 - b23)) /
           ((b33 + b43 * 1) * (b33 + b43 * 1)))
    with 0 by (unfold b23, b33, b43; lra).
  rewrite exp_0.
  pose proof lobe1_exponential_at_one as H1.
  pose proof lobe2_exponential_at_one as H2.
  unfold b11, b12, b13, tolerance. apply Rabs_le. lra.
Qed.

Lemma active_force_length_slope_at_one (m : Muscle) :
  let s := get_active_force_width_scale m in
  0 < s ->
  0.1602 / s < calcActiveForceLengthMultiplierDerivative m 1.0 < 0.1603 / s.
Proof.
  intros s Hs.
  unfold calcActiveForceLengthMultiplierDerivative. fold s.
  rewrite active_force_length_argument_at_one.
  unfold calcGaussianLikeCurveDerivative, square, cube.
  replace (- ((b21 - 1) * (b21 - 1)) /
           (2 * ((b31 + b41 * 1) * (b31 + b41 * 1))))
    with (IZR (-3028678304259323704215830625) /
          IZR 101870166607259061059892143042)
    by (unfold b21, b31, b41; lra).
  replace (- ((b22 - 1) * (b22 - 1)) /
           (2 * ((b32 + b42 * 1) * (b32 + b42 * 1))))
    with (IZR (-2506755201750304553374156800) /
          IZR 1814967261850431736266565129)
    by (unfold b22, b32, b42; lra).
  pose proof lobe1_exponential_at_one as H1.
  pose proof lobe2_exponential_at_one as H2.
  revert H1 H2.
  generalize (exp (IZR (-3028678304259323704215830625) /
                   IZR 101870166607259061059892143042)).
  generalize (exp (IZR (-2506755201750304553374156800) /
                   IZR 1814967261850431736266565129)).
  generalize (exp (- ((b23 - 1) * (b23 - 1)) /
                   (2 * ((b33 + b43 * 1) * (b33 + b43 * 1))))).
  intros E3 E2 E1 H1 H2.
  unfold b11, b21, b31, b41, b12, b22, b32, b42, b13, b23, b33, b43.
  match goal with |- _ < _ * ?sum < _ => set (slope := sum) end.
  assert (Hslope : 0.1602 < slope < 0.1603) by (unfold slope; lra).
  clearbody slope.
  assert (Hinv : 0 < / s) by (apply Rinv_0_lt_compat; exact Hs).
  unfold Rdiv. generalize dependent (/ s). intros i Hi. nra.
Qed.

(** C2, amended: for every width scale [s > 0] the active force-length
    multiplier at normalized fiber length 1.0 is 1.0 within the tolerance,
    so the curve passes through (1, 1) whatever [s] is; its derivative there
    is not 0 but [D / s] with a constant [0.1602 < D < 0.1603]: 1.0 is the
    fixed point of the width scaling, not a stationary point of the curve. *)
Theorem active_force_length_through_one_one (m : Muscle) :
  0 < get_active_force_width_scale m ->
  Rabs (calcActiveForceLengthMultiplier m 1.0 - 1.0) <= tolerance /\
  0.1602 / get_active_force_width_scale m
    < calcActiveForceLengthMultiplierDerivative m 1.0
    < 0.1603 / get_active_force_width_scale m.
Proof.
  intros Hs. split.
  - apply active_force_length_at_one.
  - apply active_force_length_slope_at_one. exact Hs.
Qed.

Lemma active_force_length_through_one_one_witness :
  0 < get_active_force_width_scale exampleMuscle /\
  Rabs (calcActiveForceLengthMultiplier exampleMuscle 1.0 - 1.0)
    <= tolerance.
Proof.
  assert (Hs : 0 < get_active_force_width_scale exampleMuscle)
    by (simpl; lra).
  split; [exact Hs|].
  exact (proj1 (active_force_length_through_one_one exampleMuscle Hs)).
Defined.

(** C2 as stated fails: at the default width scale the derivative of the
    active force-length multiplier at 1.0 is not 0. *)
Lemma active_force_length_slope_at_one_not_zero :
  0 < get_active_force_width_scale exampleMuscle /\
  calcActiveForceLengthMultiplierDerivative exampleMuscle 1.0 <> 0.
Proof.
  assert (Hs : 0 < get_active_force_width_scale exampleMuscle)
    by (simpl; lra).
  split; [exact Hs|].
  pose proof (active_force_length_slope_at_one exampleMuscle Hs) as H.
  simpl in H. lra.
Qed.

Lemma gaussian_exponent_derivative (b2 b3 b4 x : R) :
  b3 + b4 * x <> 0 ->
  derivable_pt_lim (fun y => -0.5 * square (y - b2) / square (b3 + b4 * y)) x
    ((b2 - x) * (b3 + b2 * b4) / cube (b3 + b4 * x)).
Proof.
  intros Hden.
  pose (f := (id - fct_cte b2)%F).
  pose (g := (fct_cte b3 + mult_real_fct b4 id)%F).
  assert (Hf : derivable_pt_lim f x (1 - 0)).
  { apply derivable_pt_lim_minus;
      [apply derivable_pt_lim_id | apply derivable_pt_lim_const]. }
  assert (Hg : derivable_pt_lim g x (0 + b4 * 1)).
  { apply derivable_pt_lim_plus;
      [apply derivable_pt_lim_const
      | apply derivable_pt_lim_scal, derivable_pt_lim_id]. }
  pose proof (derivable_pt_lim_mult f f x _ _ Hf Hf) as Hff.
  pose proof (derivable_pt_lim_scal _ (-0.5) x _ Hff) as Hnum.
  pose proof (derivable_pt_lim_mult g g x _ _ Hg Hg) as Hgg.
  assert (Hgx : (g * g)%F x <> 0).
  { unfold g, mult_fct, plus_fct, fct_cte, mult_real_fct, id.
    apply Rmult_integral_contrapositive_currified; exact Hden. }
  pose proof (derivable_pt_lim_div _ _ x _ _ Hnum Hgg Hgx) as H.
  match type of H with
  | derivable_pt_lim _ _ ?l =>
      replace ((b2 - x) * (b3 + b2 * b4) / cube (b3 + b4 * x)) with l
  end.
  - exact H.
  - unfold g, f, mult_fct, plus_fct, minus_fct, fct_cte, mult_real_fct, id,
      Rsqr, cube.
    replace (-0.5) with (- (1 / 2)) by lra. field. exact Hden.
Qed.

Lemma calcGaussianLikeCurve_derivative (b1 b2 b3 b4 x : R) :
  b3 + b4 * x <> 0 ->
  derivable_pt_lim (fun y => calcGaussianLikeCurve y b1 b2 b3 b4) x
    (calcGaussianLikeCurveDerivative x b1 b2 b3 b4).
Proof.
  intros Hden.
  pose proof (gaussian_exponent_derivative b2 b3 b4 x Hden) as Hu.
  set (u := fun y => -0.5 * square (y - b2) / square (b3 + b4 * y)) in Hu.
  pose proof (derivable_pt_lim_comp u exp x _ _ Hu
                (derivable_pt_lim_exp (u x))) as Hexp.
  pose proof (derivable_pt_lim_scal _ b1 x _ Hexp) as H.
  unfold calcGaussianLikeCurveDerivative.
  match type of H with
  | derivable_pt_lim _ _ ?l =>
      replace (b1 * exp (- square (b2 - x) / (2 * square (b3 + b4 * x))) *
               (b2 - x) * (b3 + b2 * b4) / cube (b3 + b4 * x)) with l
  end.
  - exact H.
  - replace (- square (b2 - x) / (2 * square (b3 + b4 * x))) with (u x).
    + unfold Rdiv. ring.
    + unfold u, square. replace (-0.5) with (- (1 / 2)) by lra.
      field. exact Hden.
Qed.

Lemma calcActiveForceLengthMultiplier_derivative (m : Muscle) (x : R) :
  get_active_force_width_scale m <> 0 ->
  b31 + b41 * ((x - 1.0) / get_active_force_width_scale m + 1.0) <> 0 ->
  b32 + b42 * ((x - 1.0) / get_active_force_width_scale m + 1.0) <> 0 ->
  derivable_pt_lim (calcActiveForceLengthMultiplier m) x
    (calcActiveForceLengthMultiplierDerivative m x).
Proof.
  intros Hs H1 H2.
  set (s := get_active_force_width_scale m) in *.
  pose (shift := fun y : R => (y - 1.0) / s + 1.0).
  assert (Hshift : derivable_pt_lim shift x (1.0 / s)).
  { pose proof (derivable_pt_lim_plus _ _ x _ _
      (derivable_pt_lim_scal _ (/ s) x _
         (derivable_pt_lim_minus _ _ x _ _ (derivable_pt_lim_id x)
            (derivable_pt_lim_const 1.0 x)))
      (derivable_pt_lim_const 1.0 x)) as H.
    replace (1.0 / s) with (/ s * (1 - 0) + 0)
      by (replace 1.0 with 1 by lra; unfold Rdiv; ring).
    apply derivable_pt_lim_ext with (2 := H).
    intros z.
    unfold shift, plus_fct, mult_real_fct, minus_fct, fct_cte, Ranalysis1.id.
    unfold Rdiv. ring. }
  assert (H3 : b33 + b43 * shift x <> 0) by (unfold b33, b43; lra).
  pose proof (derivable_pt_lim_comp shift _ x _ _ Hshift
                (calcGaussianLikeCurve_derivative b11 b21 b31 b41 _ H1)) as L1.
  pose proof (derivable_pt_lim_comp shift _ x _ _ Hshift
                (calcGaussianLikeCurve_derivative b12 b22 b32 b42 _ H2)) as L2.
  pose proof (derivable_pt_lim_comp shift _ x _ _ Hshift
                (calcGaussianLikeCurve_derivative b13 b23 b33 b43 _ H3)) as L3.
  pose proof (derivable_pt_lim_plus _ _ x _ _
                (derivable_pt_lim_plus _ _ x _ _ L1 L2) L3) as H.
  unfold calcActiveForceLengthMultiplierDerivative. fold s. fold (shift x).
  match type of H with
  | derivable_pt_lim _ _ ?l =>
      replace (1.0 / s *
               (calcGaussianLikeCurveDerivative (shift x) b11 b21 b31 b41 +
                calcGaussianLikeCurveDerivative (shift x) b12 b22 b32 b42 +
                calcGaussianLikeCurveDerivative (shift x) b13 b23 b33 b43))
        with l by (unfold shift; ring)
  end.
  exact H.
Qed.

(** The derivative formula over the reals: for every width scale [s > 0]
    and every normalized fiber length [x] whose shifted argument
    [(x-1)/s + 1] is not a zero of the divisor of the first or the second
    lobe, [calcActiveForceLengthMultiplierDerivative] at [x] is the
    derivative of [calcActiveForceLengthMultiplier] at [x]; it is the sum
    of the three lobe derivatives at the shifted argument times [1/s].
    What the code returns at a zero of a divisor is proved in
    [Binary64Lemmas]. *)
Theorem active_force_length_derivative_exact (m : Muscle) (x : R) :
  0 < get_active_force_width_scale m ->
  b31 + b41 * ((x - 1.0) / get_active_force_width_scale m + 1.0) <> 0 ->
  b32 + b42 * ((x - 1.0) / get_active_force_width_scale m + 1.0) <> 0 ->
  derivable_pt_lim (calcActiveForceLengthMultiplier m) x
    (calcActiveForceLengthMultiplierDerivative m x) /\
  calcActiveForceLengthMultiplierDerivative m x =
    1.0 / get_active_force_width_scale m *
    (calcGaussianLikeCurveDerivative
       ((x - 1.0) / get_active_force_width_scale m + 1.0) b11 b21 b31 b41 +
     calcGaussianLikeCurveDerivative
       ((x - 1.0) / get_active_force_width_scale m + 1.0) b12 b22 b32 b42 +
     calcGaussianLikeCurveDerivative
       ((x - 1.0) / get_active_force_width_scale m + 1.0) b13 b23 b33 b43).
Proof.
  intros Hs H1 H2. split.
  - apply calcActiveForceLengthMultiplier_derivative; [lra | exact H1 | exact H2].
  - reflexivity.
Qed.

Lemma active_force_length_derivative_exact_witness :
  0 < get_active_force_width_scale exampleMuscle /\
  b31 + b41 * ((0.5 - 1.0) / get_active_force_width_scale exampleMuscle + 1.0)
    <> 0 /\
  b32 + b42 * ((0.5 - 1.0) / get_active_force_width_scale exampleMuscle + 1.0)
    <> 0 /\
  derivable_pt_lim (calcActiveForceLengthMultiplier exampleMuscle) 0.5
    (calcActiveForceLengthMultiplierDerivative exampleMuscle 0.5).
Proof.
  assert (Hs : 0 < get_active_force_width_scale exampleMuscle)
    by (simpl; lra).
  assert (H1 : b31 + b41 * ((0.5 - 1.0) /
                 get_active_force_width_scale exampleMuscle + 1.0) <> 0)
    by (simpl; unfold b31, b41; lra).
  assert (H2 : b32 + b42 * ((0.5 - 1.0) /
                 get_active_force_width_scale exampleMuscle + 1.0) <> 0)
    by (simpl; unfold b32, b42; lra).
  split; [exact Hs|]. split; [exact H1|]. split; [exact H2|].
  exact (proj1 (active_force_length_derivative_exact exampleMuscle 0.5
                  Hs H1 H2)).
Defined.

(** *** Fiber force *)

Lemma unit_multipliers_product (fl fv : R) :
  Rabs (fl - 1.0) <= tolerance -> Rabs (fv - 1) <= tolerance ->
  Rabs (1.0 * fl * fv - 1.0 * 1.0) <= 3 * tolerance.
Proof.
  unfold tolerance. intros Hfl Hfv.
  apply Rabs_le_between in Hfl. apply Rabs_le_between in Hfv.
  apply Rabs_le. nra.
Qed.

(** C8: at activation 1.0, normalized fiber length 1.0 and normalized fiber
    velocity 0, [calcFiberForce] returns no damping force, the passive force
    [maxIsometricForce * calcPassiveForceMultiplier(1.0)], and a total force
    equal to [maxIsometricForce * (1.0 * fl(1.0) * fv(0))] plus the passive
    force, where both multipliers are 1.0 within the tolerance: the total
    is [maxIsometricForce * 1.0 * 1.0 + maxIsometricForce * passive(1.0)] up
    to [3 * tolerance * |maxIsometricForce|].  With passive force enabled,
    [passive(1.0)] is the closed form
    [(1 - exp(-3.2/e0)) / (exp 4 - exp(-3.2/e0))]. *)
Theorem calcFiberForce_at_optimal_length_isometric (m : Muscle) :
  let F := get_max_isometric_force m in
  let passive := calcPassiveForceMultiplier m 1.0 in
  let ff := calcFiberForce m 1.0 (calcActiveForceLengthMultiplier m 1.0)
              (calcForceVelocityMultiplier 0) passive 0 in
  nonConPassiveFiberForce ff = 0 /\
  conPassiveFiberForce ff = F * passive /\
  totalFiberForce ff =
    F * (1.0 * calcActiveForceLengthMultiplier m 1.0 *
         calcForceVelocityMultiplier 0) + F * passive /\
  Rabs (calcActiveForceLengthMultiplier m 1.0 - 1.0) <= tolerance /\
  Rabs (calcForceVelocityMultiplier 0 - 1) <= tolerance /\
  Rabs (totalFiberForce ff - (F * 1.0 * 1.0 + F * passive))
    <= Rabs F * (3 * tolerance) /\
  (get_ignore_passive_fiber_force m = false ->
   passive =
     (1 - exp (-3.2 / get_passive_fiber_strain_at_one_norm_force m)) /
     (exp 4 - exp (-3.2 / get_passive_fiber_strain_at_one_norm_force m))).
Proof.
  intros F passive ff.
  pose proof (active_force_length_at_one m) as Hfl.
  pose proof force_velocity_at_zero as Hfv.
  split; [unfold ff; simpl; ring|].
  split; [reflexivity|].
  split; [unfold ff; simpl; fold F; ring|].
  split; [exact Hfl|]. split; [exact Hfv|]. split.
  - replace (totalFiberForce ff - (F * 1.0 * 1.0 + F * passive))
      with (F * (1.0 * calcActiveForceLengthMultiplier m 1.0 *
                 calcForceVelocityMultiplier 0 - 1.0 * 1.0))
      by (unfold ff; simpl; fold F; ring).
    rewrite Rabs_mult. apply Rmult_le_compat_l; [apply Rabs_pos|].
    apply unit_multipliers_product; assumption.
  - intros Hign. unfold passive, calcPassiveForceMultiplier. rewrite Hign.
    unfold kPE, m_minNormFiberLength.
    replace (4.0 * (1.0 - 1.0) / get_passive_fiber_strain_at_one_norm_force m)
      with 0 by (unfold Rdiv; replace (1.0 - 1.0) with 0 by lra; ring).
    rewrite exp_0.
    replace (4.0 * (0.2 - 1.0)) with (-3.2) by lra.
    replace 4.0 with 4 by lra. reflexivity.
Qed.

Lemma calcFiberForce_at_optimal_length_isometric_witness :
  get_ignore_passive_fiber_force exampleMuscle = false /\
  calcPassiveForceMultiplier exampleMuscle 1.0 =
    (1 - exp (-3.2 / 0.6)) / (exp 4 - exp (-3.2 / 0.6)).
Proof.
  split; [reflexivity|].
  apply (calcFiberForce_at_optimal_length_isometric exampleMuscle).
  reflexivity.
Defined.

End CurveLemmas.

(** ** The active force-length derivative at a zero of a divisor *)

Module Binary64Lemmas.

Import Floats Binary64.
Local Open Scope float_scope.

(** A NaN operand makes a sum and a product NaN. *)
Lemma nan_add_l (y : float) : nan + y = nan.
Proof.
  rewrite <- (SF2Prim_Prim2SF (nan + y)), add_spec.
  reflexivity.
Qed.

Lemma nan_mul_r (y : float) : y * nan = nan.
Proof.
  rewrite <- (SF2Prim_Prim2SF (y * nan)), mul_spec.
  change (Prim2SF nan) with S754_nan.
  destruct (Prim2SF y); reflexivity.
Qed.

(** At a shifted argument equal to [firstLobePole] the first lobe of the
    derivative is [0 / 0]. *)
Lemma first_lobe_derivative_at_pole (exp : float -> float) :
  exp neg_infinity = 0 ->
  calcGaussianLikeCurveDerivative exp firstLobePole b11 b21 b31 b41 = nan.
Proof.
  intros Hexp. unfold calcGaussianLikeCurveDerivative.
  change (- square (b21 - firstLobePole) /
          (2 * square (b31 + b41 * firstLobePole)))
    with neg_infinity.
  rewrite Hexp. reflexivity.
Qed.

(** C5: the derivative function does not return the derivative of the
    multiplier at every normalized fiber length.  In binary64 arithmetic,
    with an [exp] that maps minus infinity to 0 as the C library's does: at
    the default width scale 1.0 and normalized fiber length
    -2.565177372416961 the divisor [b31 + b41 * x] of the first lobe is
    exactly 0, the first lobe of the multiplier is 0 (the multiplier is
    computed), and [calcActiveForceLengthMultiplierDerivative] returns NaN;
    it also returns NaN at width scale 0.1 and normalized fiber length
    0.6434822627583039, which lies between the bounds 0.2 and 1.8. *)
Theorem calcActiveForceLengthMultiplierDerivative_nan_at_pole
    (exp : float -> float) :
  exp neg_infinity = 0 ->
  b31 + b41 * ((firstLobePole - 1.0) / 1.0 + 1.0) = 0 /\
  calcGaussianLikeCurve exp ((firstLobePole - 1.0) / 1.0 + 1.0)
    b11 b21 b31 b41 = 0 /\
  calcActiveForceLengthMultiplierDerivative exp 1.0 firstLobePole = nan /\
  (m_minNormFiberLength <=? narrowWidthLength) = true /\
  (narrowWidthLength <=? m_maxNormFiberLength) = true /\
  calcActiveForceLengthMultiplierDerivative exp narrowWidthScale
    narrowWidthLength = nan.
Proof.
  intros Hexp.
  split; [reflexivity|]. split.
  { unfold calcGaussianLikeCurve.
    change (-0.5 * square ((firstLobePole - 1.0) / 1.0 + 1.0 - b21) /
            square (b31 + b41 * ((firstLobePole - 1.0) / 1.0 + 1.0)))
      with neg_infinity.
    rewrite Hexp. reflexivity. }
  split.
  { unfold calcActiveForceLengthMultiplierDerivative. cbv zeta.
    change ((firstLobePole - 1.0) / 1.0 + 1.0) with firstLobePole.
    rewrite (first_lobe_derivative_at_pole exp Hexp), !nan_add_l.
    apply nan_mul_r. }
  split; [reflexivity|]. split; [reflexivity|].
  unfold calcActiveForceLengthMultiplierDerivative. cbv zeta.
  change ((narrowWidthLength - 1.0) / narrowWidthScale + 1.0)
    with firstLobePole.
  rewrite (first_lobe_derivative_at_pole exp Hexp), !nan_add_l.
  apply nan_mul_r.
Qed.

Lemma calcActiveForceLengthMultiplierDerivative_nan_at_pole_witness :
  expAtInfinities neg_infinity = 0 /\
  calcActiveForceLengthMultiplierDerivative expAtInfinities 1.0 firstLobePole
  = nan.
Proof.
  assert (Hexp : expAtInfinities neg_infinity = 0) by reflexivity.
  split; [exact Hexp|].
  exact (proj1 (proj2 (proj2
    (calcActiveForceLengthMultiplierDerivative_nan_at_pole
       expAtInfinities Hexp)))).
Defined.

End Binary64Lemmas.

(** ** The state accessors *)

Module StateLemmas.

Import SimTK DeGrooteFregly2016Muscle StateModel Examples.

Lemma setControls_single (m : Muscle) (a : R) (cs : list R) :
  setControls m [a] cs = <[controlIndex m := a]> cs.
Proof. reflexivity. Qed.

Lemma setActivation_as_control (m : Muscle) (s : State) (a : R) :
  get_ignore_activation_dynamics m = true ->
  setActivation m s a =
    Model_setControls s (<[controlIndex m := a]> (controls s)).
Proof.
  intros Hign. unfold setActivation. rewrite Hign.
  unfold updControls. rewrite setControls_single. reflexivity.
Qed.

Example setActivation_writes_control_slot :
  controls (setActivation rigidMuscle exampleState 0.7%R)
  = [0.1%R; 0.7%R; 0.3%R].
Proof. reflexivity. Qed.

Example getActivation_reads_control_slot :
  getActivation rigidMuscle exampleState = Some 0.2%R.
Proof. reflexivity. Qed.

Example getActivation_reads_state_variable :
  getActivation exampleMuscle exampleState = Some 0.5%R.
Proof. reflexivity. Qed.

(** C6: with [ignore_tendon_compliance] the derivative of the normalized
    tendon force is 0 in every state and the tendon stiffness is
    [SimTK::Infinity] at every normalized tendon length. *)
Theorem rigid_tendon_derivative_and_stiffness (m : Muscle) :
  get_ignore_tendon_compliance m = true ->
  (forall s : State, getNormalizedTendonForceDerivative m s = Some 0%R) /\
  (forall normTendonLength : R,
     calcTendonStiffness m normTendonLength = Infinity).
Proof.
  intros Hign. split.
  - intros s. unfold getNormalizedTendonForceDerivative.
    rewrite Hign. reflexivity.
  - intros x. unfold calcTendonStiffness. rewrite Hign. reflexivity.
Qed.

Lemma rigid_tendon_derivative_and_stiffness_witness :
  get_ignore_tendon_compliance rigidMuscle = true /\
  getNormalizedTendonForceDerivative rigidMuscle exampleState = Some 0%R /\
  calcTendonStiffness rigidMuscle 1.02%R = Infinity.
Proof.
  destruct (rigid_tendon_derivative_and_stiffness rigidMuscle eq_refl)
    as [Hderiv Hstiff].
  split; [reflexivity|].
  split; [apply Hderiv | apply Hstiff].
Defined.

(** C7: without activation dynamics [setActivation] stores the value in the
    muscle's control slot and touches no state variable, [getActivation]
    reads that control slot, and reading after writing returns the value
    written. *)
Theorem activation_is_the_control (m : Muscle) (s : State) (a : R) :
  get_ignore_activation_dynamics m = true ->
  controlIndex m < length (controls s) ->
  getActivation m s = getControl m s /\
  controls (setActivation m s a) = <[controlIndex m := a]> (controls s) /\
  stateVariables (setActivation m s a) = stateVariables s /\
  getActivation m (setActivation m s a) = Some a.
Proof.
  intros Hign Hidx.
  rewrite (setActivation_as_control m s a Hign).
  unfold getActivation. rewrite Hign.
  split; [reflexivity|]. split; [reflexivity|]. split; [reflexivity|].
  unfold getControl, Model_setControls. simpl.
  apply list_lookup_insert_eq. exact Hidx.
Qed.

Lemma activation_is_the_control_witness :
  get_ignore_activation_dynamics rigidMuscle = true /\
  controlIndex rigidMuscle < length (controls exampleState) /\
  getActivation rigidMuscle (setActivation rigidMuscle exampleState 0.7%R)
    = Some 0.7%R.
Proof.
  assert (Hidx : controlIndex rigidMuscle < length (controls exampleState))
    by (simpl; lia).
  split; [reflexivity|]. split; [exact Hidx|].
  apply (activation_is_the_control rigidMuscle exampleState 0.7%R eq_refl Hidx).
Defined.

(** C10: with [ignore_tendon_compliance] [setNormalizedTendonForce] returns
    the state it was given; otherwise it writes the normalized-tendon-force
    state slot, leaves every other slot as it was and invalidates the three
    info caches. *)
Theorem setNormalizedTendonForce_frame (m : Muscle) (s : State) (f : R) :
  (get_ignore_tendon_compliance m = true ->
   setNormalizedTendonForce m s f = s) /\
  (get_ignore_tendon_compliance m = false ->
   getStateVariableValue (setNormalizedTendonForce m s f)
     STATE_NORMALIZED_TENDON_FORCE_NAME = Some f /\
   (forall name : string, name <> STATE_NORMALIZED_TENDON_FORCE_NAME ->
      getStateVariableValue (setNormalizedTendonForce m s f) name =
      getStateVariableValue s name) /\
   stateVariableDerivatives (setNormalizedTendonForce m s f) =
     stateVariableDerivatives s /\
   discreteVariables (setNormalizedTendonForce m s f) =
     discreteVariables s /\
   controls (setNormalizedTendonForce m s f) = controls s /\
   validCacheVariables (setNormalizedTendonForce m s f) =
     validCacheVariables s ∖ {[ "lengthInfo"; "velInfo"; "dynamicsInfo" ]}).
Proof.
  split; intros Hign; unfold setNormalizedTendonForce; rewrite Hign; simpl.
  - reflexivity.
  - unfold getStateVariableValue. simpl.
    split; [apply lookup_insert_eq|].
    split; [intros name Hname; apply lookup_insert_ne; congruence|].
    split; [reflexivity|]. split; [reflexivity|]. split; [reflexivity|].
    apply set_eq. intros name.
    rewrite !elem_of_difference, !elem_of_union, !elem_of_singleton.
    tauto.
Qed.

Lemma setNormalizedTendonForce_frame_witness :
  get_ignore_tendon_compliance rigidMuscle = true /\
  setNormalizedTendonForce rigidMuscle exampleState 0.4%R = exampleState.
Proof.
  split; [reflexivity|].
  apply (setNormalizedTendonForce_frame rigidMuscle exampleState 0.4%R).
  reflexivity.
Defined.

End StateLemmas.

(** ** The remaining curves, stiffnesses and pennation geometry *)

Module MechanicsLemmas.
Import SimTK DeGrooteFregly2016Muscle MuscleMechanics FixedPoint ExpBounds Examples CurveLemmas.
Local Open Scope R_scope.

(** Derivative of [y |-> exp (a * y + b)]. *)
Lemma exp_affine_derivative (a b x : R) :
  derivable_pt_lim (fun y => exp (a * y + b)) x (a * exp (a * x + b)).
Proof.
  pose proof (derivable_pt_lim_plus _ _ x _ _
                (derivable_pt_lim_scal _ a x _ (derivable_pt_lim_id x))
                (derivable_pt_lim_const b x)) as Haff.
  pose proof (derivable_pt_lim_comp _ exp x _ _ Haff
                (derivable_pt_lim_exp _)) as H.
  replace (a * exp (a * x + b)) with (exp (a * x + b) * (a * 1 + 0)) by ring.
  exact H.
Qed.

Lemma derivable_pt_lim_eq (f g : R -> R) (x l l' : R) :
  (forall z, f z = g z) -> l = l' ->
  derivable_pt_lim f x l -> derivable_pt_lim g x l'.
Proof.
  intros Hfg <- H. exact (derivable_pt_lim_ext f g x l Hfg H).
Qed.

Lemma affine_exp_combination_derivative (p q a b r t x : R) :
  derivable_pt_lim (fun y => p * exp (a * y + b) + q * y + r + t * 0) x
    (p * (a * exp (a * x + b)) + q).
Proof.
  pose proof (derivable_pt_lim_plus _ _ x _ _
     (derivable_pt_lim_plus _ _ x _ _
        (derivable_pt_lim_scal _ p x _ (exp_affine_derivative a b x))
        (derivable_pt_lim_scal _ q x _ (derivable_pt_lim_id x)))
     (derivable_pt_lim_const (r + t * 0) x)) as H.
  apply derivable_pt_lim_eq with (3 := H).
  - intros z. unfold plus_fct, mult_real_fct, fct_cte, Ranalysis1.id. ring.
  - ring.
Qed.

Lemma passive_multiplier_derivative (m : Muscle) (x : R) :
  (get_ignore_passive_fiber_force m = false ->
   0 < get_passive_fiber_strain_at_one_norm_force m) ->
  derivable_pt_lim (calcPassiveForceMultiplier m) x
    (calcPassiveForceMultiplierDerivative m x).
Proof.
  intros He0.
  unfold calcPassiveForceMultiplier, calcPassiveForceMultiplierDerivative.
  destruct (get_ignore_passive_fiber_force m).
  - apply derivable_pt_lim_const.
  - specialize (He0 eq_refl).
    set (e0 := get_passive_fiber_strain_at_one_norm_force m) in *.
    pose proof (passive_denominator_pos e0 He0) as Hden.
    set (offset := exp (kPE * (m_minNormFiberLength - 1.0) / e0)) in *.
    replace (exp (kPE * (m_minNormFiberLength - 1) / e0)) with offset
      by (unfold offset; f_equal; lra).
    pose proof (affine_exp_combination_derivative
                  (/ (exp kPE - offset)) 0 (kPE / e0) (- kPE / e0)
                  (- offset / (exp kPE - offset)) 0 x) as H.
    apply derivable_pt_lim_eq with (3 := H).
    + intros z. replace 1.0 with 1 by lra.
      replace (kPE / e0 * z + - kPE / e0) with (kPE * (z - 1) / e0)
        by (field; lra).
      field. lra.
    + replace (kPE / e0 * x + - kPE / e0) with (kPE * (x - 1) / e0)
        by (field; lra).
      field. split; lra.
Qed.

(** X1: calcPassiveForceMultiplierDerivative(x) is the derivative of
    calcPassiveForceMultiplier at every normalized fiber length x: when
    passive force is enabled and the passive strain e0 is positive, and
    (both being 0) when passive force is ignored; when passive force is
    enabled the derivative is strictly positive. *)
Theorem calcPassiveForceMultiplierDerivative_exact (m : Muscle) (x : R) :
  (get_ignore_passive_fiber_force m = false ->
   0 < get_passive_fiber_strain_at_one_norm_force m) ->
  derivable_pt_lim (calcPassiveForceMultiplier m) x
    (calcPassiveForceMultiplierDerivative m x) /\
  (get_ignore_passive_fiber_force m = false ->
   0 < calcPassiveForceMultiplierDerivative m x).
Proof.
  intros He0. split; [apply passive_multiplier_derivative; exact He0|].
  intros Hign. specialize (He0 Hign).
  unfold calcPassiveForceMultiplierDerivative. rewrite Hign.
  set (e0 := get_passive_fiber_strain_at_one_norm_force m) in *.
  pose proof (passive_denominator_pos e0 He0) as Hden.
  replace 1.0 with 1 in Hden by lra.
  pose proof (exp_pos (kPE * (x - 1) / e0)) as Hexp.
  apply Rmult_lt_0_compat.
  - apply Rmult_lt_0_compat; [unfold kPE; lra | exact Hexp].
  - apply Rinv_0_lt_compat. apply Rmult_lt_0_compat; assumption.
Qed.

Lemma calcPassiveForceMultiplierDerivative_exact_witness :
  (get_ignore_passive_fiber_force exampleMuscle = false ->
   0 < get_passive_fiber_strain_at_one_norm_force exampleMuscle) /\
  derivable_pt_lim (calcPassiveForceMultiplier exampleMuscle) 1.2
    (calcPassiveForceMultiplierDerivative exampleMuscle 1.2).
Proof.
  assert (He0 : get_ignore_passive_fiber_force exampleMuscle = false ->
                0 < get_passive_fiber_strain_at_one_norm_force exampleMuscle)
    by (intros _; simpl; lra).
  split; [exact He0|].
  exact (proj1 (calcPassiveForceMultiplierDerivative_exact exampleMuscle 1.2
                  He0)).
Defined.

(** X2: calcPassiveForceMultiplierIntegral is an antiderivative of
    calcPassiveForceMultiplier: its derivative at every x is
    calcPassiveForceMultiplier(x) (for e0 > 0 when passive force is enabled;
    both are 0 when it is ignored). *)
Theorem calcPassiveForceMultiplierIntegral_antiderivative
    (m : Muscle) (x : R) :
  (get_ignore_passive_fiber_force m = false ->
   0 < get_passive_fiber_strain_at_one_norm_force m) ->
  derivable_pt_lim (calcPassiveForceMultiplierIntegral m) x
    (calcPassiveForceMultiplier m x).
Proof.
  intros He0.
  unfold calcPassiveForceMultiplierIntegral, calcPassiveForceMultiplier.
  destruct (get_ignore_passive_fiber_force m).
  - apply derivable_pt_lim_const.
  - specialize (He0 eq_refl).
    set (e0 := get_passive_fiber_strain_at_one_norm_force m) in *.
    pose proof (passive_denominator_pos e0 He0) as Hden.
    replace 1.0 with 1 in * by lra.
    set (offset := exp (kPE * (m_minNormFiberLength - 1) / e0)) in *.
    set (E := exp (kPE / e0)).
    assert (HE : 0 < E) by apply exp_pos.
    assert (HkPE : kPE <> 0) by (unfold kPE; lra).
    assert (Htemp1 : exp (kPE * m_minNormFiberLength / e0) = offset * E).
    { unfold offset, E. rewrite <- exp_plus. f_equal. field. lra. }
    assert (Hbig : exp (kPE * (1 + 1 / e0)) = exp kPE * E).
    { unfold E. rewrite <- exp_plus. f_equal. field. lra. }
    assert (Hx : exp (kPE / e0 * x + 0) = exp (kPE * (x - 1) / e0) * E).
    { unfold E. rewrite <- exp_plus. f_equal. field. lra. }
    rewrite Htemp1, Hbig.
    assert (Hden' : exp kPE * E - offset * E <> 0) by nra.
    pose proof (affine_exp_combination_derivative
                  (e0 / kPE / (exp kPE * E - offset * E))
                  (- (offset * E) / (exp kPE * E - offset * E))
                  (kPE / e0) 0 0 0 x) as H.
    apply derivable_pt_lim_eq with (3 := H).
    + intros z. replace (kPE / e0 * z + 0) with (kPE / e0 * z) by ring.
      field. repeat split; lra.
    + rewrite Hx. field. repeat split; lra.
Qed.

Lemma calcPassiveForceMultiplierIntegral_antiderivative_witness :
  (get_ignore_passive_fiber_force exampleMuscle = false ->
   0 < get_passive_fiber_strain_at_one_norm_force exampleMuscle) /\
  derivable_pt_lim (calcPassiveForceMultiplierIntegral exampleMuscle) 1.2
    (calcPassiveForceMultiplier exampleMuscle 1.2).
Proof.
  assert (He0 : get_ignore_passive_fiber_force exampleMuscle = false ->
                0 < get_passive_fiber_strain_at_one_norm_force exampleMuscle)
    by (intros _; simpl; lra).
  split; [exact He0|].
  exact (calcPassiveForceMultiplierIntegral_antiderivative exampleMuscle 1.2
           He0).
Defined.

(** X3: With passive force enabled and e0 > 0, calcPassiveForceMultiplier is
    exactly 1 at normalized fiber length 1 + e0 (the strain at one
    normalized force), negative below the minimum normalized fiber length
    0.2 and positive above it. *)
Theorem calcPassiveForceMultiplier_unit_strain_and_sign (m : Muscle) :
  get_ignore_passive_fiber_force m = false ->
  0 < get_passive_fiber_strain_at_one_norm_force m ->
  calcPassiveForceMultiplier m
    (1 + get_passive_fiber_strain_at_one_norm_force m) = 1 /\
  (forall x : R, x < m_minNormFiberLength ->
     calcPassiveForceMultiplier m x < 0) /\
  (forall x : R, m_minNormFiberLength < x ->
     0 < calcPassiveForceMultiplier m x).
Proof.
  intros Hign He0.
  assert (Hzero : calcPassiveForceMultiplier m m_minNormFiberLength = 0).
  { unfold calcPassiveForceMultiplier. rewrite Hign.
    unfold Rdiv. rewrite Rminus_diag. apply Rmult_0_l. }
  split; [|split].
  - unfold calcPassiveForceMultiplier. rewrite Hign.
    set (e0 := get_passive_fiber_strain_at_one_norm_force m) in *.
    pose proof (passive_denominator_pos e0 He0) as Hden.
    replace 1.0 with 1 in * by lra.
    replace (kPE * (1 + e0 - 1) / e0) with kPE by (field; lra).
    field. lra.
  - intros x Hx. rewrite <- Hzero. apply passive_increasing; assumption.
  - intros x Hx. rewrite <- Hzero. apply passive_increasing; assumption.
Qed.

Lemma calcPassiveForceMultiplier_unit_strain_and_sign_witness :
  get_ignore_passive_fiber_force exampleMuscle = false /\
  0 < get_passive_fiber_strain_at_one_norm_force exampleMuscle /\
  calcPassiveForceMultiplier exampleMuscle (1 + 0.6) = 1.
Proof.
  assert (He0 : 0 < get_passive_fiber_strain_at_one_norm_force exampleMuscle)
    by (simpl; lra).
  split; [reflexivity|]. split; [exact He0|].
  exact (proj1 (calcPassiveForceMultiplier_unit_strain_and_sign exampleMuscle
                  eq_refl He0)).
Defined.

(** *** Tendon force-length curve *)

Lemma tendon_multiplier_derivative (m : Muscle) (x : R) :
  derivable_pt_lim (calcTendonForceMultiplier m) x
    (calcTendonForceMultiplierDerivative m x).
Proof.
  unfold calcTendonForceMultiplier, calcTendonForceMultiplierDerivative.
  pose proof (affine_exp_combination_derivative
                c1 0 (m_kT m) (- m_kT m * c2) (- c3) 0 x) as H.
  apply derivable_pt_lim_eq with (3 := H).
  - intros z.
    replace (m_kT m * z + - m_kT m * c2) with (m_kT m * (z - c2)) by ring.
    ring.
  - replace (m_kT m * x + - m_kT m * c2) with (m_kT m * (x - c2)) by ring.
    ring.
Qed.

(** X4: calcTendonForceMultiplierDerivative(x) is the derivative of
    calcTendonForceMultiplier at every normalized tendon length x, for every
    kT, and it is positive when kT > 0. *)
Theorem calcTendonForceMultiplierDerivative_exact (m : Muscle) (x : R) :
  derivable_pt_lim (calcTendonForceMultiplier m) x
    (calcTendonForceMultiplierDerivative m x) /\
  (0 < m_kT m -> 0 < calcTendonForceMultiplierDerivative m x).
Proof.
  split; [apply tendon_multiplier_derivative|].
  intros HkT. unfold calcTendonForceMultiplierDerivative.
  pose proof (exp_pos (m_kT m * (x - c2))). unfold c1. nra.
Qed.

Lemma calcTendonForceMultiplierDerivative_exact_witness :
  0 < m_kT exampleMuscle /\
  0 < calcTendonForceMultiplierDerivative exampleMuscle 1.02.
Proof.
  assert (HkT : 0 < m_kT exampleMuscle) by (simpl; lra).
  split; [exact HkT|].
  exact (proj2 (calcTendonForceMultiplierDerivative_exact exampleMuscle 1.02)
           HkT).
Defined.

(** X5: For kT <> 0, calcTendonForceMultiplierIntegral is an antiderivative
    of calcTendonForceMultiplier: its derivative at every x is
    calcTendonForceMultiplier(x). *)
Theorem calcTendonForceMultiplierIntegral_antiderivative
    (m : Muscle) (x : R) :
  m_kT m <> 0 ->
  derivable_pt_lim (calcTendonForceMultiplierIntegral m) x
    (calcTendonForceMultiplier m x).
Proof.
  intros HkT.
  unfold calcTendonForceMultiplierIntegral, calcTendonForceMultiplier.
  pose proof (affine_exp_combination_derivative
                (c1 / m_kT m) (- c3) (m_kT m) (- m_kT m * c2) 0 0 x) as H.
  apply derivable_pt_lim_eq with (3 := H).
  - intros z.
    replace (m_kT m * z + - m_kT m * c2) with (- m_kT m * (c2 - z)) by ring.
    field. exact HkT.
  - replace (m_kT m * x + - m_kT m * c2) with (m_kT m * (x - c2)) by ring.
    field. exact HkT.
Qed.

Lemma calcTendonForceMultiplierIntegral_antiderivative_witness :
  m_kT exampleMuscle <> 0 /\
  derivable_pt_lim (calcTendonForceMultiplierIntegral exampleMuscle) 1.02
    (calcTendonForceMultiplier exampleMuscle 1.02).
Proof.
  assert (HkT : m_kT exampleMuscle <> 0) by (simpl; lra).
  split; [exact HkT|].
  exact (calcTendonForceMultiplierIntegral_antiderivative exampleMuscle 1.02
           HkT).
Defined.

Lemma tendon_inverse_argument_pos (f : R) :
  - c3 < f -> 0 < 1.0 / c1 * (f + c3).
Proof. unfold c1, c3. lra. Qed.

(** X6: For kT <> 0 and every normalized tendon force f above the asymptote
    -c3 = -0.2,
    calcTendonForceMultiplier(calcTendonForceLengthInverseCurve(f)) = f: the
    inverse curve is also a right inverse on the range of the forward curve. *)
Theorem tendon_force_of_inverse (m : Muscle) (f : R) :
  m_kT m <> 0 -> - c3 < f ->
  calcTendonForceMultiplier m (calcTendonForceLengthInverseCurve m f) = f.
Proof.
  intros HkT Hf.
  unfold calcTendonForceMultiplier, calcTendonForceLengthInverseCurve.
  replace (m_kT m * (ln (1.0 / c1 * (f + c3)) / m_kT m + c2 - c2))
    with (ln (1.0 / c1 * (f + c3))) by (field; exact HkT).
  rewrite exp_ln by (apply tendon_inverse_argument_pos; exact Hf).
  unfold c1, c3. lra.
Qed.

Lemma tendon_force_of_inverse_witness :
  m_kT exampleMuscle <> 0 /\ - c3 < 0.5 /\
  calcTendonForceMultiplier exampleMuscle
    (calcTendonForceLengthInverseCurve exampleMuscle 0.5) = 0.5.
Proof.
  assert (HkT : m_kT exampleMuscle <> 0) by (simpl; lra).
  assert (Hf : - c3 < 0.5) by (unfold c3; lra).
  split; [exact HkT|]. split; [exact Hf|].
  exact (tendon_force_of_inverse exampleMuscle 0.5 HkT Hf).
Defined.

Lemma tendon_multiplier_at_one (m : Muscle) :
  calcTendonForceMultiplier m 1 = 0.
Proof.
  unfold calcTendonForceMultiplier, c1, c2, c3.
  replace (m_kT m * (1 - 1.0)) with 0 by lra.
  rewrite exp_0. lra.
Qed.

Lemma tendon_multiplier_increasing (m : Muscle) (x y : R) :
  0 < m_kT m -> x < y ->
  calcTendonForceMultiplier m x < calcTendonForceMultiplier m y.
Proof.
  intros HkT Hxy. unfold calcTendonForceMultiplier.
  assert (H : m_kT m * (x - c2) < m_kT m * (y - c2)) by nra.
  apply exp_increasing in H. unfold c1. lra.
Qed.

(** X7: For kT > 0, calcTendonForceMultiplier is strictly increasing, stays
    above its asymptote -c3 = -0.2, and is non-negative exactly for
    normalized tendon lengths x >= 1. *)
Theorem calcTendonForceMultiplier_shape (m : Muscle) :
  0 < m_kT m ->
  (forall x y : R, x < y ->
     calcTendonForceMultiplier m x < calcTendonForceMultiplier m y) /\
  (forall x : R, - c3 < calcTendonForceMultiplier m x) /\
  (forall x : R, 0 <= calcTendonForceMultiplier m x <-> 1 <= x).
Proof.
  intros HkT. split; [|split].
  - intros x y. apply tendon_multiplier_increasing. exact HkT.
  - intros x. unfold calcTendonForceMultiplier.
    pose proof (exp_pos (m_kT m * (x - c2))). unfold c1. lra.
  - intros x.
    pose proof (tendon_multiplier_at_one m) as H1.
    split; intros H.
    + destruct (Rle_or_lt 1 x) as [Hx | Hx]; [exact Hx|].
      pose proof (tendon_multiplier_increasing m x 1 HkT Hx). lra.
    + destruct H as [H | <-]; [|lra].
      pose proof (tendon_multiplier_increasing m 1 x HkT H). lra.
Qed.

Lemma calcTendonForceMultiplier_shape_witness :
  0 < m_kT exampleMuscle /\
  calcTendonForceMultiplier exampleMuscle 1 <
    calcTendonForceMultiplier exampleMuscle 1.02.
Proof.
  assert (HkT : 0 < m_kT exampleMuscle) by (simpl; lra).
  split; [exact HkT|].
  apply (proj1 (calcTendonForceMultiplier_shape exampleMuscle HkT)). lra.
Defined.

(** X8: For kT > 0 and a normalized tendon force f within the bounds
    [getMinNormalizedTendonForce, getMaxNormalizedTendonForce] = [0, 5],
    calcTendonForceLengthInverseCurve(f) lies between 1 (slack length) and
    its value at the upper bound, which is 1 + ln(26)/kT. *)
Theorem tendon_length_within_force_bounds (m : Muscle) (f : R) :
  0 < m_kT m ->
  getMinNormalizedTendonForce <= f <= getMaxNormalizedTendonForce ->
  1 <= calcTendonForceLengthInverseCurve m f <=
    calcTendonForceLengthInverseCurve m getMaxNormalizedTendonForce /\
  calcTendonForceLengthInverseCurve m getMaxNormalizedTendonForce =
    1 + ln 26 / m_kT m.
Proof.
  unfold getMinNormalizedTendonForce, getMaxNormalizedTendonForce,
    m_minNormTendonForce, m_maxNormTendonForce.
  intros HkT [Hlo Hhi].
  unfold calcTendonForceLengthInverseCurve, c1, c2, c3.
  assert (Hinv : 0 < / m_kT m) by (apply Rinv_0_lt_compat; exact HkT).
  assert (Hmono : forall a b : R, 0 < a -> a <= b -> ln a <= ln b).
  { intros a b Ha [Hab | ->]; [left; apply ln_increasing; assumption | lra]. }
  assert (H0 : 0 <= ln (1.0 / 0.200 * (f + 0.200))).
  { rewrite <- ln_1. apply Hmono; lra. }
  assert (H1 : ln (1.0 / 0.200 * (f + 0.200))
               <= ln (1.0 / 0.200 * (5.0 + 0.200))).
  { apply Hmono; lra. }
  replace (1.0 / 0.200 * (5.0 + 0.200)) with 26 in * by lra.
  unfold Rdiv. split; [split|]; nra.
Qed.

Lemma tendon_length_within_force_bounds_witness :
  0 < m_kT exampleMuscle /\
  getMinNormalizedTendonForce <= 1 <= getMaxNormalizedTendonForce /\
  1 <= calcTendonForceLengthInverseCurve exampleMuscle 1.
Proof.
  assert (HkT : 0 < m_kT exampleMuscle) by (simpl; lra).
  assert (Hf : getMinNormalizedTendonForce <= 1
               <= getMaxNormalizedTendonForce)
    by (unfold getMinNormalizedTendonForce, getMaxNormalizedTendonForce,
          m_minNormTendonForce, m_maxNormTendonForce; lra).
  split; [exact HkT|]. split; [exact Hf|].
  exact (proj1 (proj1 (tendon_length_within_force_bounds exampleMuscle 1
                         HkT Hf))).
Defined.

(** X9: For kT <> 0, calcTendonForceLengthInverseCurveDerivative undoes the
    chain rule of the tendon curve: given the force rate
    calcTendonForceMultiplierDerivative(x) times v at tendon length x it
    returns the tendon velocity v; and for f > -0.2 its value for a unit
    force rate at the length calcTendonForceLengthInverseCurve(f) is the
    derivative of calcTendonForceLengthInverseCurve at f. *)
Theorem calcTendonForceLengthInverseCurveDerivative_chain_rule
    (m : Muscle) (f v x : R) :
  m_kT m <> 0 ->
  (- c3 < f ->
   derivable_pt_lim (calcTendonForceLengthInverseCurve m) f
     (calcTendonForceLengthInverseCurveDerivative m 1
        (calcTendonForceLengthInverseCurve m f))) /\
  calcTendonForceLengthInverseCurveDerivative m
    (calcTendonForceMultiplierDerivative m x * v) x = v.
Proof.
  intros HkT. split.
  - intros Hf.
    pose proof (tendon_inverse_argument_pos f Hf) as Harg.
    unfold calcTendonForceLengthInverseCurveDerivative.
    assert (Hexp : exp (m_kT m * (calcTendonForceLengthInverseCurve m f - c2))
                   = 1.0 / c1 * (f + c3)).
    { unfold calcTendonForceLengthInverseCurve.
      replace (m_kT m * (ln (1.0 / c1 * (f + c3)) / m_kT m + c2 - c2))
        with (ln (1.0 / c1 * (f + c3))) by (field; exact HkT).
      apply exp_ln. exact Harg. }
    rewrite Hexp.
    pose (inner := fun y : R => 1.0 / c1 * (y + c3)).
    assert (Hinner : derivable_pt_lim inner f (1.0 / c1 * (1 + 0))).
    { apply (derivable_pt_lim_scal (fun y => y + c3) (1.0 / c1) f (1 + 0)).
      apply (derivable_pt_lim_plus Ranalysis1.id (fct_cte c3));
        [apply derivable_pt_lim_id | apply derivable_pt_lim_const]. }
    pose proof (derivable_pt_lim_comp inner ln f _ _ Hinner
                  (derivable_pt_lim_ln (inner f) Harg)) as Hln.
    pose proof (derivable_pt_lim_plus _ _ f _ _
                  (derivable_pt_lim_scal _ (/ m_kT m) f _ Hln)
                  (derivable_pt_lim_const c2 f)) as H.
    apply derivable_pt_lim_eq with (3 := H).
    + intros z. unfold plus_fct, mult_real_fct, fct_cte, comp, inner,
        calcTendonForceLengthInverseCurve. field. exact HkT.
    + unfold inner. replace 1.0 with 1 in * by lra.
      assert (Hc1 : c1 <> 0) by (unfold c1; lra).
      assert (Hfc : f + c3 <> 0) by lra.
      field. repeat split; assumption.
  - unfold calcTendonForceLengthInverseCurveDerivative,
      calcTendonForceMultiplierDerivative.
    pose proof (exp_pos (m_kT m * (x - c2))) as He.
    unfold c1. field. split; lra.
Qed.

Lemma calcTendonForceLengthInverseCurveDerivative_chain_rule_witness :
  m_kT exampleMuscle <> 0 /\
  calcTendonForceLengthInverseCurveDerivative exampleMuscle
    (calcTendonForceMultiplierDerivative exampleMuscle 1.02 * 3) 1.02 = 3.
Proof.
  assert (HkT : m_kT exampleMuscle <> 0) by (simpl; lra).
  split; [exact HkT|].
  exact (proj2 (calcTendonForceLengthInverseCurveDerivative_chain_rule
                  exampleMuscle 0 3 1.02 HkT)).
Defined.


(** *** Force-velocity curve *)

(** X10: calcForceVelocityMultiplier(calcForceVelocityInverseCurve(f)) = f
    for every force-velocity multiplier f: the inverse curve is also a right
    inverse. *)
Theorem force_velocity_of_inverse (f : R) :
  calcForceVelocityMultiplier (calcForceVelocityInverseCurve f) = f.
Proof.
  unfold calcForceVelocityMultiplier, calcForceVelocityInverseCurve.
  set (u := 1.0 / d1 * (f - d4)).
  replace (d2 * ((sinh u - d3) / d2) + d3) with (sinh u)
    by (unfold d2; field; lra).
  replace (ln (sinh u + sqrt (square (sinh u) + 1.0)))
    with (arcsinh (sinh u)).
  - rewrite arcsinh_sinh. unfold u, d1. lra.
  - unfold arcsinh, square. f_equal. f_equal. f_equal. lra.
Qed.

Lemma force_velocity_as_arcsinh (v : R) :
  calcForceVelocityMultiplier v = d1 * arcsinh (d2 * v + d3) + d4.
Proof.
  unfold calcForceVelocityMultiplier, arcsinh, square.
  replace ((d2 * v + d3) * (d2 * v + d3) + 1.0)
    with ((d2 * v + d3) ^ 2 + 1) by lra.
  reflexivity.
Qed.

Lemma force_velocity_increasing (v w : R) :
  v < w -> calcForceVelocityMultiplier v < calcForceVelocityMultiplier w.
Proof.
  intros Hvw. rewrite !force_velocity_as_arcsinh.
  assert (H : d2 * w + d3 < d2 * v + d3) by (unfold d2; lra).
  apply arcsinh_lt in H. unfold d1. lra.
Qed.

Lemma log_argument_at_one :
  -2.8393394977983509241 <= ln (-8.523 + sqrt (-8.523 * -8.523 + 1.0))
    <= -2.8393394977983509240.
Proof.
  assert (Hs : 8.581464268992792351216392 <= sqrt (-8.523 * -8.523 + 1.0)
               <= 8.581464268992792351216393)
    by (apply sqrt_between; lra).
  enclose_exp (-28393394977983509241)%Z 10000000000000000000%Z Ha.
  enclose_exp (-28393394977983509240)%Z 10000000000000000000%Z Hb.
  replace (-2.8393394977983509241)
    with (IZR (-28393394977983509241) / IZR 10000000000000000000) by lra.
  replace (-2.8393394977983509240)
    with (IZR (-28393394977983509240) / IZR 10000000000000000000) by lra.
  apply ln_between; lra.
Qed.

Lemma force_velocity_at_one :
  1.7943 <= calcForceVelocityMultiplier 1 <= 1.7944.
Proof.
  unfold calcForceVelocityMultiplier, square, d1, d2, d3, d4.
  replace (-8.149 * 1 + -0.374) with (-8.523) by lra.
  pose proof log_argument_at_one as H. lra.
Qed.

(** X11: calcForceVelocityMultiplier is strictly increasing in the
    normalized fiber velocity, and on the documented domain [-1, 1] its
    values lie between -1e-15 and 1.7944, the value at 1 being at least
    1.7943 (the documented range [0, 1.794]). *)
Theorem calcForceVelocityMultiplier_increasing_and_range :
  (forall v w : R, v < w ->
     calcForceVelocityMultiplier v < calcForceVelocityMultiplier w) /\
  (forall v : R, -1 <= v <= 1 ->
     - tolerance <= calcForceVelocityMultiplier v <= 1.7944) /\
  1.7943 <= calcForceVelocityMultiplier 1.
Proof.
  split; [exact force_velocity_increasing|]. split.
  - intros v [Hlo Hhi].
    pose proof force_velocity_at_minus_one as Hm.
    apply Rabs_le_between in Hm.
    pose proof force_velocity_at_one as Hp.
    assert (calcForceVelocityMultiplier (-1)
            <= calcForceVelocityMultiplier v).
    { destruct Hlo as [Hlo | <-];
        [left; apply force_velocity_increasing; exact Hlo | lra]. }
    assert (calcForceVelocityMultiplier v
            <= calcForceVelocityMultiplier 1).
    { destruct Hhi as [Hhi | ->];
        [left; apply force_velocity_increasing; exact Hhi | lra]. }
    lra.
  - apply force_velocity_at_one.
Qed.

Lemma calcForceVelocityMultiplier_increasing_and_range_witness :
  -1 <= 0.5 <= 1 /\
  - tolerance <= calcForceVelocityMultiplier 0.5 <= 1.7944.
Proof.
  assert (Hv : -1 <= 0.5 <= 1) by lra.
  split; [exact Hv|].
  exact (proj1 (proj2 calcForceVelocityMultiplier_increasing_and_range)
           0.5 Hv).
Defined.

(** *** Active force-length curve *)

Lemma gaussian_like_bounds (x b1 b2 b3 b4 : R) :
  0 < b1 -> 0 < calcGaussianLikeCurve x b1 b2 b3 b4 <= b1.
Proof.
  intros Hb1. unfold calcGaussianLikeCurve.
  set (u := -0.5 * square (x - b2) / square (b3 + b4 * x)).
  assert (Hu : u <= 0).
  { unfold u, square, Rdiv.
    assert (0 <= (x - b2) * (x - b2)) by apply (Rle_0_sqr (x - b2)).
    assert (0 <= / ((b3 + b4 * x) * (b3 + b4 * x))).
    { destruct (Req_dec (b3 + b4 * x) 0) as [-> | Hne].
      - rewrite Rmult_0_l, Rinv_0. lra.
      - left. apply Rinv_0_lt_compat. apply (Rlt_0_sqr _ Hne). }
    replace (-0.5) with (- (1 / 2)) by lra.
    generalize dependent (/ ((b3 + b4 * x) * (b3 + b4 * x))).
    generalize dependent ((x - b2) * (x - b2)).
    intros n Hn i Hi. nra. }
  pose proof (exp_pos u) as Hpos.
  assert (Hle : exp u <= 1).
  { rewrite <- exp_0. destruct Hu as [Hu | ->];
      [left; apply exp_increasing; exact Hu | lra]. }
  split; nra.
Qed.

(** X12: For every muscle with a non-zero width scale and every normalized
    fiber length, calcActiveForceLengthMultiplier is strictly positive and
    at most b11 + b12 + b13 (each Gaussian-like lobe lies in (0, b1]). *)
Theorem calcActiveForceLengthMultiplier_bounds (m : Muscle) (x : R) :
  get_active_force_width_scale m <> 0 ->
  0 < calcActiveForceLengthMultiplier m x <= b11 + b12 + b13.
Proof.
  intros _. unfold calcActiveForceLengthMultiplier.
  set (y := (x - 1.0) / get_active_force_width_scale m + 1.0).
  pose proof (gaussian_like_bounds y b11 b21 b31 b41
                ltac:(unfold b11; lra)).
  pose proof (gaussian_like_bounds y b12 b22 b32 b42
                ltac:(unfold b12; lra)).
  pose proof (gaussian_like_bounds y b13 b23 b33 b43
                ltac:(unfold b13; lra)).
  lra.
Qed.

Lemma calcActiveForceLengthMultiplier_bounds_witness :
  get_active_force_width_scale exampleMuscle <> 0 /\
  0 < calcActiveForceLengthMultiplier exampleMuscle 0.5 <= b11 + b12 + b13.
Proof.
  assert (Hs : get_active_force_width_scale exampleMuscle <> 0)
    by (simpl; lra).
  split; [exact Hs|].
  exact (calcActiveForceLengthMultiplier_bounds exampleMuscle 0.5 Hs).
Defined.

(** *** Stiffness *)

Lemma scaled_argument_derivative (f : R -> R) (k x l : R) :
  derivable_pt_lim f (x / k) l ->
  derivable_pt_lim (fun y => f (y / k)) x (1.0 / k * l).
Proof.
  intros Hf.
  assert (Hnorm : derivable_pt_lim (fun y => y / k) x (/ k * 1)).
  { pose proof (derivable_pt_lim_scal _ (/ k) x _ (derivable_pt_lim_id x))
      as H.
    apply derivable_pt_lim_eq with (3 := H); [|reflexivity].
    intros z. unfold mult_real_fct, Ranalysis1.id, Rdiv. ring. }
  pose proof (derivable_pt_lim_comp _ f x _ _ Hnorm Hf) as H.
  apply derivable_pt_lim_eq with (3 := H); [reflexivity|].
  replace 1.0 with 1 by lra. unfold Rdiv. ring.
Qed.

(** X13: calcFiberStiffness(activation, l/optimal_fiber_length, fv) is the
    derivative with respect to the fiber length l of the total fiber force
    that calcFiberForce returns for the active and passive multipliers
    evaluated at l/optimal_fiber_length (force-velocity multiplier and fiber
    velocity held fixed), away from the poles of the active lobes and for
    optimal fiber length <> 0, width scale <> 0 and e0 > 0. *)
Theorem calcFiberStiffness_is_force_derivative
    (m : Muscle) (activation fiberVelocityMultiplier normFiberVelocity
                  fiberLength : R) :
  let normFiberLength := fiberLength / get_optimal_fiber_length m in
  let shifted :=
    (normFiberLength - 1.0) / get_active_force_width_scale m + 1.0 in
  get_optimal_fiber_length m <> 0 ->
  get_active_force_width_scale m <> 0 ->
  b31 + b41 * shifted <> 0 ->
  b32 + b42 * shifted <> 0 ->
  (get_ignore_passive_fiber_force m = false ->
   0 < get_passive_fiber_strain_at_one_norm_force m) ->
  derivable_pt_lim
    (fun l : R =>
       totalFiberForce
         (calcFiberForce m activation
            (calcActiveForceLengthMultiplier m
               (l / get_optimal_fiber_length m))
            fiberVelocityMultiplier
            (calcPassiveForceMultiplier m (l / get_optimal_fiber_length m))
            normFiberVelocity))
    fiberLength
    (calcFiberStiffness m activation normFiberLength
       fiberVelocityMultiplier).
Proof.
  intros x shifted _ Hs H1 H2 He0.
  pose proof (scaled_argument_derivative _ (get_optimal_fiber_length m)
                fiberLength _
                (calcActiveForceLengthMultiplier_derivative m x Hs H1 H2))
    as Hact.
  pose proof (scaled_argument_derivative _ (get_optimal_fiber_length m)
                fiberLength _ (passive_multiplier_derivative m x He0))
    as Hpas.
  set (F := get_max_isometric_force m).
  pose proof (derivable_pt_lim_plus _ _ fiberLength _ _
     (derivable_pt_lim_plus _ _ fiberLength _ _
        (derivable_pt_lim_scal _ (F * activation * fiberVelocityMultiplier)
           fiberLength _ Hact)
        (derivable_pt_lim_scal _ F fiberLength _ Hpas))
     (derivable_pt_lim_const
        (F * get_fiber_damping m * normFiberVelocity) fiberLength)) as H.
  apply derivable_pt_lim_eq with (3 := H).
  - intros z. unfold plus_fct, mult_real_fct, fct_cte. simpl. fold F. ring.
  - unfold calcFiberStiffness. fold F. fold x. ring.
Qed.

Lemma calcFiberStiffness_is_force_derivative_witness :
  get_optimal_fiber_length exampleMuscle <> 0 /\
  get_active_force_width_scale exampleMuscle <> 0 /\
  derivable_pt_lim
    (fun l : R =>
       totalFiberForce
         (calcFiberForce exampleMuscle 0.5
            (calcActiveForceLengthMultiplier exampleMuscle (l / 0.1))
            1
            (calcPassiveForceMultiplier exampleMuscle (l / 0.1))
            0))
    0.1
    (calcFiberStiffness exampleMuscle 0.5 (0.1 / 0.1) 1).
Proof.
  assert (Hl : get_optimal_fiber_length exampleMuscle <> 0)
    by (simpl; lra).
  assert (Hs : get_active_force_width_scale exampleMuscle <> 0)
    by (simpl; lra).
  split; [exact Hl|]. split; [exact Hs|].
  apply (calcFiberStiffness_is_force_derivative exampleMuscle 0.5 1 0 0.1
           Hl Hs).
  - simpl. unfold b31, b41. lra.
  - simpl. unfold b32, b42. lra.
  - intros _. simpl. lra.
Defined.

(** X14: With a compliant tendon and tendon_slack_length <> 0,
    calcTendonStiffness(lT/tendon_slack_length) is a finite value equal to
    the derivative with respect to the tendon length lT of
    max_isometric_force times
    calcTendonForceMultiplier(lT/tendon_slack_length); it is positive when
    the maximum isometric force, the slack length and kT are positive. *)
Theorem calcTendonStiffness_is_force_derivative
    (m : Muscle) (tendonLength : R) :
  get_ignore_tendon_compliance m = false ->
  get_tendon_slack_length m <> 0 ->
  exists k : R,
    calcTendonStiffness m (tendonLength / get_tendon_slack_length m)
      = Finite k /\
    derivable_pt_lim
      (fun l : R =>
         get_max_isometric_force m *
         calcTendonForceMultiplier m (l / get_tendon_slack_length m))
      tendonLength k /\
    (0 < get_max_isometric_force m -> 0 < get_tendon_slack_length m ->
     0 < m_kT m -> 0 < k).
Proof.
  intros Hign _. unfold calcTendonStiffness. rewrite Hign.
  eexists. split; [reflexivity|]. split.
  - pose proof (scaled_argument_derivative _ (get_tendon_slack_length m)
                  tendonLength _
                  (tendon_multiplier_derivative m
                     (tendonLength / get_tendon_slack_length m))) as Hten.
    pose proof (derivable_pt_lim_scal _ (get_max_isometric_force m)
                  tendonLength _ Hten) as H.
    apply derivable_pt_lim_eq with (3 := H); [reflexivity|].
    replace 1.0 with 1 by lra. unfold Rdiv. ring.
  - intros HF Hls HkT.
    apply Rmult_lt_0_compat.
    + apply Rmult_lt_0_compat; [exact HF | apply Rinv_0_lt_compat; exact Hls].
    + unfold calcTendonForceMultiplierDerivative.
      pose proof (exp_pos (m_kT m *
                    (tendonLength / get_tendon_slack_length m - c2))).
      unfold c1. nra.
Qed.

Lemma calcTendonStiffness_is_force_derivative_witness :
  get_ignore_tendon_compliance exampleMuscle = false /\
  get_tendon_slack_length exampleMuscle <> 0 /\
  exists k : R,
    calcTendonStiffness exampleMuscle
      (0.21 / get_tendon_slack_length exampleMuscle) = Finite k.
Proof.
  assert (Hls : get_tendon_slack_length exampleMuscle <> 0)
    by (simpl; lra).
  split; [reflexivity|]. split; [exact Hls|].
  destruct (calcTendonStiffness_is_force_derivative exampleMuscle 0.21
              eq_refl Hls) as [k [Hk _]].
  exists k. exact Hk.
Defined.

(** X15: With a rigid tendon calcMuscleStiffness returns the fiber stiffness
    along the tendon whatever the tendon stiffness argument is; with a
    compliant tendon and positive stiffnesses it is the series combination:
    1/K = 1/kFiber + 1/kTendon, and 0 < K < kTendon, K < kFiber. *)
Theorem calcMuscleStiffness_series (m : Muscle)
    (tendonStiffness fiberStiffnessAlongTendon : R) :
  (get_ignore_tendon_compliance m = true ->
   calcMuscleStiffness m tendonStiffness fiberStiffnessAlongTendon
     = fiberStiffnessAlongTendon) /\
  (get_ignore_tendon_compliance m = false ->
   0 < tendonStiffness -> 0 < fiberStiffnessAlongTendon ->
   let K := calcMuscleStiffness m tendonStiffness
              fiberStiffnessAlongTendon in
   / K = / fiberStiffnessAlongTendon + / tendonStiffness /\
   0 < K < tendonStiffness /\ K < fiberStiffnessAlongTendon).
Proof.
  unfold calcMuscleStiffness. split; intros Hign; rewrite Hign.
  - reflexivity.
  - intros Hkt Hkf. simpl.
    set (kt := tendonStiffness) in *.
    set (kf := fiberStiffnessAlongTendon) in *.
    assert (Hsum : 0 < kf + kt) by lra.
    assert (Hprod : 0 < kf * kt) by nra.
    split; [field; repeat split; lra|].
    assert (HK : kf * kt / (kf + kt) * (kf + kt) = kf * kt)
      by (field; lra).
    set (K := kf * kt / (kf + kt)) in *.
    assert (0 < K).
    { unfold K. apply Rmult_lt_0_compat;
        [exact Hprod | apply Rinv_0_lt_compat; exact Hsum]. }
    split; [split|]; nra.
Qed.

Lemma calcMuscleStiffness_series_witness :
  get_ignore_tendon_compliance exampleMuscle = false /\
  0 < 3 /\ 0 < 6 /\
  calcMuscleStiffness exampleMuscle 3 6 < 3.
Proof.
  assert (H3 : 0 < 3) by lra. assert (H6 : 0 < 6) by lra.
  split; [reflexivity|]. split; [exact H3|]. split; [exact H6|].
  exact (proj2 (proj1 (proj2 (proj2 (calcMuscleStiffness_series
           exampleMuscle 3 6) eq_refl H3 H6)))).
Defined.


(** *** Pennation geometry *)

Lemma sine_in_range (w l : R) : 0 < l -> - l < w < l -> -1 < w / l < 1.
Proof.
  intros Hl [Hlo Hhi].
  assert (Hinv : 0 < / l) by (apply Rinv_0_lt_compat; exact Hl).
  assert (Hone : l * / l = 1) by (apply Rinv_r; lra).
  unfold Rdiv. split; nra.
Qed.

Lemma cosine_pos (u : R) : -1 < u < 1 -> 0 < sqrt (1 - square u).
Proof.
  intros Hu. apply sqrt_lt_R0. unfold square. nra.
Qed.

Lemma cosine_square (u : R) :
  -1 < u < 1 -> sqrt (1 - square u) * sqrt (1 - square u) = 1 - square u.
Proof.
  intros Hu. apply sqrt_sqrt. unfold square. nra.
Qed.

Lemma pennation_angle_derivative (c : ComputedMembers) (l : R) :
  0 < l -> - l < m_fiberWidth c < l ->
  derivable_pt_lim (fun y : R => asin (m_fiberWidth c / y)) l
    (calcPartialPennationAnglePartialFiberLength c l).
Proof.
  intros Hl Hw. set (w := m_fiberWidth c) in *.
  pose proof (sine_in_range w l Hl Hw) as Hu.
  assert (Hquot : derivable_pt_lim (fun y : R => w / y) l (- w / square l)).
  { pose proof (derivable_pt_lim_div (fct_cte w) Ranalysis1.id l 0 1
                  (derivable_pt_lim_const w l) (derivable_pt_lim_id l)
                  ltac:(unfold Ranalysis1.id; lra)) as H.
    apply derivable_pt_lim_eq with (3 := H); [reflexivity|].
    unfold fct_cte, Ranalysis1.id, Rsqr, square. field. lra. }
  assert (Hasin : derivable_pt_lim asin (w / l) (1 / sqrt (1 - (w / l)²))).
  { apply (derive_pt_eq_1 asin (w / l) _ (derivable_pt_asin (w / l) Hu)).
    apply derive_pt_asin. }
  pose proof (derivable_pt_lim_comp _ asin l _ _ Hquot Hasin) as H.
  apply derivable_pt_lim_eq with (3 := H); [reflexivity|].
  unfold calcPartialPennationAnglePartialFiberLength. fold w.
  replace 1.0 with 1 by lra. unfold Rsqr, square, Rdiv. ring.
Qed.

(** X16: For a fiber length l > 0 longer than the fiber width in absolute
    value, calcPartialPennationAnglePartialFiberLength(l) is the derivative
    of the pennation angle asin(fiberWidth/l) with respect to l, and it is
    negative when the fiber width is positive. *)
Theorem calcPartialPennationAnglePartialFiberLength_exact
    (c : ComputedMembers) (fiberLength : R) :
  0 < fiberLength -> - fiberLength < m_fiberWidth c < fiberLength ->
  derivable_pt_lim (fun l : R => asin (m_fiberWidth c / l)) fiberLength
    (calcPartialPennationAnglePartialFiberLength c fiberLength) /\
  (0 < m_fiberWidth c ->
   calcPartialPennationAnglePartialFiberLength c fiberLength < 0).
Proof.
  intros Hl Hw. split; [apply pennation_angle_derivative; assumption|].
  intros Hpos. unfold calcPartialPennationAnglePartialFiberLength.
  pose proof (cosine_pos _ (sine_in_range _ _ Hl Hw)) as Hcos.
  replace 1.0 with 1 by lra.
  assert (Hnum : - m_fiberWidth c / square fiberLength < 0).
  { unfold square, Rdiv.
    assert (0 < / (fiberLength * fiberLength))
      by (apply Rinv_0_lt_compat; nra).
    nra. }
  unfold Rdiv at 1.
  assert (0 < / sqrt (1 - square (m_fiberWidth c / fiberLength)))
    by (apply Rinv_0_lt_compat; exact Hcos).
  nra.
Qed.


Lemma calcPartialPennationAnglePartialFiberLength_exact_witness :
  0 < 5 /\ - 5 < 3 < 5 /\
  derivable_pt_lim (fun l : R => asin (3 / l)) 5
    (calcPartialPennationAnglePartialFiberLength
       {| m_fiberWidth := 3; m_squareFiberWidth := 9;
          m_maxContractionVelocityInMetersPerSecond := 1 |} 5).
Proof.
  assert (Hl : 0 < 5) by lra. assert (Hw : - 5 < 3 < 5) by lra.
  split; [exact Hl|]. split; [exact Hw|].
  exact (proj1 (calcPartialPennationAnglePartialFiberLength_exact
           {| m_fiberWidth := 3; m_squareFiberWidth := 9;
              m_maxContractionVelocityInMetersPerSecond := 1 |} 5 Hl Hw)).
Defined.

Lemma length_along_tendon_rate (w l : R) :
  0 < l -> - l < w < l ->
  sqrt (1 - square (w / l)) -
  l * (w / l) * (- w / square l / sqrt (1.0 - square (w / l)))
  = / sqrt (1 - square (w / l)).
Proof.
  intros Hl Hw.
  pose proof (sine_in_range w l Hl Hw) as Hu.
  pose proof (cosine_pos _ Hu) as Hcos.
  pose proof (cosine_square _ Hu) as Hsq.
  replace 1.0 with 1 by lra.
  set (cosAngle := sqrt (1 - square (w / l))) in *.
  apply Rmult_eq_reg_r with cosAngle; [|lra].
  rewrite Rinv_l by lra.
  replace ((cosAngle - l * (w / l) * (- w / square l / cosAngle)) * cosAngle)
    with (cosAngle * cosAngle + square (w / l))
    by (unfold square; field; split; lra).
  rewrite Hsq. ring.
Qed.

(** X17: With the fixed-width pennation model (sin = fiberWidth/l, cos =
    sqrt(1 - sin^2), angle rate from
    calcPartialPennationAnglePartialFiberLength, l > |fiberWidth|),
    calcFiberStiffnessAlongTendon returns the partial of the fiber force
    along the tendon times the cosine of the pennation angle, because the
    fiber length along the tendon changes at the rate 1/cos. *)
Theorem calcFiberStiffnessAlongTendon_fixed_width
    (c : ComputedMembers) (fiberLength partialForce : R) :
  0 < fiberLength -> - fiberLength < m_fiberWidth c < fiberLength ->
  let sinPennationAngle := m_fiberWidth c / fiberLength in
  let cosPennationAngle := sqrt (1 - square sinPennationAngle) in
  calcFiberStiffnessAlongTendon fiberLength partialForce
    sinPennationAngle cosPennationAngle
    (calcPartialPennationAnglePartialFiberLength c fiberLength)
  = partialForce * cosPennationAngle.
Proof.
  intros Hl Hw sinA cosA.
  unfold calcFiberStiffnessAlongTendon,
    calcPartialPennationAnglePartialFiberLength.
  pose proof (length_along_tendon_rate _ _ Hl Hw) as H.
  subst sinA cosA. cbv zeta. rewrite H.
  pose proof (cosine_pos _ (sine_in_range _ _ Hl Hw)) as Hcos.
  replace 1.0 with 1 by lra. field. lra.
Qed.

Lemma calcFiberStiffnessAlongTendon_fixed_width_witness :
  0 < 5 /\ - 5 < 3 < 5 /\
  calcFiberStiffnessAlongTendon 5 2 (3 / 5) (sqrt (1 - square (3 / 5)))
    (calcPartialPennationAnglePartialFiberLength
       {| m_fiberWidth := 3; m_squareFiberWidth := 9;
          m_maxContractionVelocityInMetersPerSecond := 1 |} 5)
  = 2 * sqrt (1 - square (3 / 5)).
Proof.
  assert (Hl : 0 < 5) by lra. assert (Hw : - 5 < 3 < 5) by lra.
  split; [exact Hl|]. split; [exact Hw|].
  exact (calcFiberStiffnessAlongTendon_fixed_width
           {| m_fiberWidth := 3; m_squareFiberWidth := 9;
              m_maxContractionVelocityInMetersPerSecond := 1 |} 5 2 Hl Hw).
Defined.

(** X18: For l > |fiberWidth|, calcPartialTendonLengthPartialFiberLength
    evaluated with the sine, cosine and rate of the pennation angle
    asin(fiberWidth/l) is the derivative with respect to l of the tendon
    length lMT - l cos(asin(fiberWidth/l)), and equals -1/cos(pennation
    angle). *)
Theorem calcPartialTendonLengthPartialFiberLength_exact
    (c : ComputedMembers) (muscleTendonLength fiberLength : R) :
  0 < fiberLength -> - fiberLength < m_fiberWidth c < fiberLength ->
  let pennationAngle := asin (m_fiberWidth c / fiberLength) in
  derivable_pt_lim
    (fun l : R => muscleTendonLength - l * cos (asin (m_fiberWidth c / l)))
    fiberLength
    (calcPartialTendonLengthPartialFiberLength fiberLength
       (sin pennationAngle) (cos pennationAngle)
       (calcPartialPennationAnglePartialFiberLength c fiberLength)) /\
  calcPartialTendonLengthPartialFiberLength fiberLength
    (sin pennationAngle) (cos pennationAngle)
    (calcPartialPennationAnglePartialFiberLength c fiberLength)
  = - / cos pennationAngle.
Proof.
  intros Hl Hw angle. set (w := m_fiberWidth c) in *.
  pose proof (sine_in_range w fiberLength Hl Hw) as Hrange.
  assert (Hsin : sin angle = w / fiberLength)
    by (apply sin_asin; lra).
  assert (Hcos : cos angle = sqrt (1 - square (w / fiberLength)))
    by (unfold angle, square; rewrite cos_asin by lra; reflexivity).
  split.
  - pose proof (pennation_angle_derivative c fiberLength Hl Hw) as Hang.
    fold w in Hang.
    pose proof (derivable_pt_lim_comp _ cos fiberLength _ _ Hang
                  (derivable_pt_lim_cos _)) as Hcosd.
    pose proof (derivable_pt_lim_minus _ _ fiberLength _ _
                  (derivable_pt_lim_const muscleTendonLength fiberLength)
                  (derivable_pt_lim_mult _ _ fiberLength _ _
                     (derivable_pt_lim_id fiberLength) Hcosd)) as H.
    apply derivable_pt_lim_eq with (3 := H); [reflexivity|].
    unfold calcPartialTendonLengthPartialFiberLength, comp, Ranalysis1.id.
    fold angle. ring.
  - unfold calcPartialTendonLengthPartialFiberLength,
      calcPartialPennationAnglePartialFiberLength. fold w.
    rewrite Hsin, Hcos.
    pose proof (length_along_tendon_rate w fiberLength Hl Hw) as H.
    rewrite <- H. ring.
Qed.

Lemma calcPartialTendonLengthPartialFiberLength_exact_witness :
  0 < 5 /\ - 5 < 3 < 5 /\
  calcPartialTendonLengthPartialFiberLength 5
    (sin (asin (3 / 5))) (cos (asin (3 / 5)))
    (calcPartialPennationAnglePartialFiberLength
       {| m_fiberWidth := 3; m_squareFiberWidth := 9;
          m_maxContractionVelocityInMetersPerSecond := 1 |} 5)
  = - / cos (asin (3 / 5)).
Proof.
  assert (Hl : 0 < 5) by lra. assert (Hw : - 5 < 3 < 5) by lra.
  split; [exact Hl|]. split; [exact Hw|].
  exact (proj2 (calcPartialTendonLengthPartialFiberLength_exact
           {| m_fiberWidth := 3; m_squareFiberWidth := 9;
              m_maxContractionVelocityInMetersPerSecond := 1 |} 0 5 Hl Hw)).
Defined.

(** X19: With the fixed-width pennation model and l > |fiberWidth|,
    calcPartialTendonForcePartialFiberLength returns
    -tendonStiffness/cos(pennation angle); with zero fiber width (no
    pennation) it returns -tendonStiffness. *)
Theorem calcPartialTendonForcePartialFiberLength_fixed_width
    (c : ComputedMembers) (tendonStiffness fiberLength : R) :
  0 < fiberLength -> - fiberLength < m_fiberWidth c < fiberLength ->
  let sinPennationAngle := m_fiberWidth c / fiberLength in
  let cosPennationAngle := sqrt (1 - square sinPennationAngle) in
  calcPartialTendonForcePartialFiberLength c tendonStiffness fiberLength
    sinPennationAngle cosPennationAngle
  = - tendonStiffness / cosPennationAngle /\
  (m_fiberWidth c = 0 ->
   calcPartialTendonForcePartialFiberLength c tendonStiffness fiberLength
     sinPennationAngle cosPennationAngle = - tendonStiffness).
Proof.
  intros Hl Hw sinA cosA.
  assert (Hmain :
    calcPartialTendonForcePartialFiberLength c tendonStiffness fiberLength
      sinA cosA = - tendonStiffness / cosA).
  { unfold calcPartialTendonForcePartialFiberLength,
      calcPartialTendonLengthPartialFiberLength,
      calcPartialPennationAnglePartialFiberLength.
    pose proof (length_along_tendon_rate _ _ Hl Hw) as H.
    subst sinA cosA. cbv zeta.
    replace (fiberLength * (m_fiberWidth c / fiberLength) *
             (- m_fiberWidth c / square fiberLength /
              sqrt (1.0 - square (m_fiberWidth c / fiberLength))) -
             sqrt (1 - square (m_fiberWidth c / fiberLength)))
      with (- / sqrt (1 - square (m_fiberWidth c / fiberLength)))
      by (rewrite <- H; ring).
    unfold Rdiv. ring. }
  split; [exact Hmain|].
  intros Hzero. rewrite Hmain. unfold cosA, sinA. rewrite Hzero.
  unfold Rdiv at 2. rewrite Rmult_0_l. unfold square. rewrite Rmult_0_l.
  rewrite Rminus_0_r, sqrt_1. field.
Qed.

Lemma calcPartialTendonForcePartialFiberLength_fixed_width_witness :
  0 < 5 /\ - 5 < 3 < 5 /\
  calcPartialTendonForcePartialFiberLength
    {| m_fiberWidth := 3; m_squareFiberWidth := 9;
       m_maxContractionVelocityInMetersPerSecond := 1 |} 7 5
    (3 / 5) (sqrt (1 - square (3 / 5)))
  = - 7 / sqrt (1 - square (3 / 5)).
Proof.
  assert (Hl : 0 < 5) by lra. assert (Hw : - 5 < 3 < 5) by lra.
  split; [exact Hl|]. split; [exact Hw|].
  exact (proj1 (calcPartialTendonForcePartialFiberLength_fixed_width
           {| m_fiberWidth := 3; m_squareFiberWidth := 9;
              m_maxContractionVelocityInMetersPerSecond := 1 |} 7 5 Hl Hw)).
Defined.

(** X20: If the fiber force and the pennation angle are differentiable
    functions of the fiber length with derivatives fiberStiffness and
    angleRate, then
    calcPartialFiberForceAlongTendonPartialFiberLength(force,
    fiberStiffness, sin(angle), cos(angle), angleRate) is the derivative of
    force times cos(angle) with respect to the fiber length. *)
Theorem calcPartialFiberForceAlongTendonPartialFiberLength_exact
    (fiberForce pennationAngle : R -> R)
    (fiberLength fiberStiffness angleRate : R) :
  derivable_pt_lim fiberForce fiberLength fiberStiffness ->
  derivable_pt_lim pennationAngle fiberLength angleRate ->
  derivable_pt_lim
    (fun l : R => fiberForce l * cos (pennationAngle l)) fiberLength
    (calcPartialFiberForceAlongTendonPartialFiberLength
       (fiberForce fiberLength) fiberStiffness
       (sin (pennationAngle fiberLength))
       (cos (pennationAngle fiberLength)) angleRate).
Proof.
  intros Hforce Hangle.
  pose proof (derivable_pt_lim_comp _ cos fiberLength _ _ Hangle
                (derivable_pt_lim_cos _)) as Hcos.
  pose proof (derivable_pt_lim_mult _ _ fiberLength _ _ Hforce Hcos) as H.
  apply derivable_pt_lim_eq with (3 := H); [reflexivity|].
  unfold calcPartialFiberForceAlongTendonPartialFiberLength, comp. ring.
Qed.

Lemma calcPartialFiberForceAlongTendonPartialFiberLength_exact_witness :
  derivable_pt_lim (fun l : R => 2 * l) 1 (2 * 1) /\
  derivable_pt_lim (fun _ : R => 0) 1 0 /\
  derivable_pt_lim (fun l : R => 2 * l * cos 0) 1
    (calcPartialFiberForceAlongTendonPartialFiberLength
       (2 * 1) (2 * 1) (sin 0) (cos 0) 0).
Proof.
  assert (Hf : derivable_pt_lim (fun l : R => 2 * l) 1 (2 * 1))
    by exact (derivable_pt_lim_scal Ranalysis1.id 2 1 1
                (derivable_pt_lim_id 1)).
  assert (Ha : derivable_pt_lim (fun _ : R => 0) 1 0)
    by exact (derivable_pt_lim_const 0 1).
  split; [exact Hf|]. split; [exact Ha|].
  exact (calcPartialFiberForceAlongTendonPartialFiberLength_exact
           (fun l : R => 2 * l) (fun _ : R => 0) 1 (2 * 1) 0 Hf Ha).
Defined.

(** *** Equilibrium residuals *)

(** X21: When fiberStiffnessAlongTendon + tendonStiffness <> 0,
    calcLinearizedEquilibriumResidualDerivative is 0 exactly when the fiber
    velocity along the tendon equals tendonStiffness times
    muscleTendonVelocity over (fiberStiffnessAlongTendon + tendonStiffness). *)
Theorem calcLinearizedEquilibriumResidualDerivative_zero
    (muscleTendonVelocity fiberVelocityAlongTendon tendonStiffness
     fiberStiffnessAlongTendon : R) :
  fiberStiffnessAlongTendon + tendonStiffness <> 0 ->
  (calcLinearizedEquilibriumResidualDerivative muscleTendonVelocity
     fiberVelocityAlongTendon tendonStiffness fiberStiffnessAlongTendon = 0
   <->
   fiberVelocityAlongTendon =
     tendonStiffness * muscleTendonVelocity /
     (fiberStiffnessAlongTendon + tendonStiffness)).
Proof.
  intros Hsum. unfold calcLinearizedEquilibriumResidualDerivative.
  split; intros H.
  - apply Rmult_eq_reg_r with (fiberStiffnessAlongTendon + tendonStiffness);
      [|exact Hsum].
    unfold Rdiv. rewrite Rmult_assoc, Rinv_l by exact Hsum. lra.
  - rewrite H. field. exact Hsum.
Qed.

Lemma calcLinearizedEquilibriumResidualDerivative_zero_witness :
  3 + 1 <> 0 /\
  calcLinearizedEquilibriumResidualDerivative 4 1 1 3 = 0.
Proof.
  assert (Hsum : 3 + 1 <> 0) by lra.
  split; [exact Hsum|].
  apply (calcLinearizedEquilibriumResidualDerivative_zero 4 1 1 3 Hsum).
  lra.
Defined.

End MechanicsLemmas.

(** ** More on the state accessors *)

Module StateRestLemmas.

Import SimTK DeGrooteFregly2016Muscle StateModel StateModelRest Examples.

Lemma state_eq (s t : State) :
  stateVariables s = stateVariables t ->
  stateVariableDerivatives s = stateVariableDerivatives t ->
  discreteVariables s = discreteVariables t ->
  controls s = controls t ->
  validCacheVariables s = validCacheVariables t ->
  s = t.
Proof.
  destruct s, t. simpl. intros -> -> -> -> ->. reflexivity.
Qed.

Lemma state_names_differ :
  STATE_ACTIVATION_NAME <> STATE_NORMALIZED_TENDON_FORCE_NAME.
Proof. discriminate. Qed.

Lemma invalidated_caches_twice (s : State) :
  validCacheVariables s ∖ {["lengthInfo"]} ∖ {["velInfo"]}
    ∖ {["dynamicsInfo"]} ∖ {["lengthInfo"]} ∖ {["velInfo"]}
    ∖ {["dynamicsInfo"]}
  = validCacheVariables s ∖ {["lengthInfo"]} ∖ {["velInfo"]}
      ∖ {["dynamicsInfo"]}.
Proof.
  apply set_eq. intros name.
  rewrite !elem_of_difference, !elem_of_singleton. tauto.
Qed.

(** X22: With a compliant tendon, getNormalizedTendonForce after
    setNormalizedTendonForce(s, f) returns f; with a rigid tendon the write
    is dropped and the value read is still the tendon force of s divided by
    max_isometric_force. *)
Theorem normalized_tendon_force_set_get
    (getTendonForce : State -> R) (m : Muscle) (s : State) (f : R) :
  (get_ignore_tendon_compliance m = false ->
   getNormalizedTendonForce getTendonForce m
     (setNormalizedTendonForce m s f) = Some f) /\
  (get_ignore_tendon_compliance m = true ->
   getNormalizedTendonForce getTendonForce m
     (setNormalizedTendonForce m s f)
   = Some (getTendonForce s / get_max_isometric_force m)%R).
Proof.
  unfold getNormalizedTendonForce, setNormalizedTendonForce.
  split; intros Hign; rewrite Hign; simpl.
  - unfold getStateVariableValue. simpl. apply lookup_insert_eq.
  - reflexivity.
Qed.

Lemma normalized_tendon_force_set_get_witness :
  get_ignore_tendon_compliance exampleMuscle = false /\
  getNormalizedTendonForce (fun _ => 0%R) exampleMuscle
    (setNormalizedTendonForce exampleMuscle exampleState 0.4%R)
  = Some 0.4%R.
Proof.
  split; [reflexivity|].
  exact (proj1 (normalized_tendon_force_set_get (fun _ => 0%R)
                  exampleMuscle exampleState 0.4%R) eq_refl).
Defined.

(** X23: With activation dynamics enabled, getActivation after
    setActivation(s, a) returns a for every state, and setActivation changes
    neither the controls, nor the caches, nor any other state variable. *)
Theorem activation_state_variable_set_get (m : Muscle) (s : State) (a : R) :
  get_ignore_activation_dynamics m = false ->
  getActivation m (setActivation m s a) = Some a /\
  controls (setActivation m s a) = controls s /\
  validCacheVariables (setActivation m s a) = validCacheVariables s /\
  (forall name : string, name <> STATE_ACTIVATION_NAME ->
     getStateVariableValue (setActivation m s a) name
     = getStateVariableValue s name).
Proof.
  intros Hign. unfold getActivation, setActivation. rewrite Hign.
  unfold getStateVariableValue. simpl.
  split; [apply lookup_insert_eq|].
  split; [reflexivity|]. split; [reflexivity|].
  intros name Hname. apply lookup_insert_ne. congruence.
Qed.

Lemma activation_state_variable_set_get_witness :
  get_ignore_activation_dynamics exampleMuscle = false /\
  getActivation exampleMuscle (setActivation exampleMuscle exampleState 0.9%R)
  = Some 0.9%R.
Proof.
  split; [reflexivity|].
  exact (proj1 (activation_state_variable_set_get exampleMuscle exampleState
                  0.9%R eq_refl)).
Defined.

(** X24: In every mode, setActivation and setNormalizedTendonForce commute,
    setNormalizedTendonForce does not change what getActivation returns, and
    setActivation does not change the normalized-tendon-force state
    variable. *)
Theorem setters_commute (m : Muscle) (s : State) (a f : R) :
  setActivation m (setNormalizedTendonForce m s f) a
  = setNormalizedTendonForce m (setActivation m s a) f /\
  getActivation m (setNormalizedTendonForce m s f) = getActivation m s /\
  getStateVariableValue (setActivation m s a)
    STATE_NORMALIZED_TENDON_FORCE_NAME
  = getStateVariableValue s STATE_NORMALIZED_TENDON_FORCE_NAME.
Proof.
  pose proof state_names_differ as Hne.
  unfold setActivation, setNormalizedTendonForce, getActivation, getControl,
    getStateVariableValue.
  destruct (get_ignore_activation_dynamics m),
    (get_ignore_tendon_compliance m); simpl;
    (split; [|split]); try reflexivity;
    first [ apply lookup_insert_ne; congruence
          | apply state_eq; simpl; try reflexivity;
            apply insert_insert_ne; exact Hne ].
Qed.

(** X25: Calling setActivation twice gives the same state as the second call
    alone, and likewise for setNormalizedTendonForce (including the
    invalidated caches), in every mode. *)
Theorem setters_last_write_wins (m : Muscle) (s : State) (a b : R) :
  setActivation m (setActivation m s a) b = setActivation m s b /\
  setNormalizedTendonForce m (setNormalizedTendonForce m s a) b
  = setNormalizedTendonForce m s b.
Proof.
  unfold setActivation, setNormalizedTendonForce, setControls, updControls.
  split.
  - destruct (get_ignore_activation_dynamics m); simpl.
    + apply state_eq; simpl; try reflexivity.
      apply list_insert_insert_eq.
    + apply state_eq; simpl; try reflexivity.
      apply insert_insert_eq.
  - destruct (get_ignore_tendon_compliance m); simpl; [reflexivity|].
    apply state_eq; simpl; try reflexivity.
    + apply insert_insert_eq.
    + apply invalidated_caches_twice.
Qed.

(** X26: getNormalizedTendonForceDerivative has three sources, one per
    mode.  With a rigid tendon it is 0 and
    getImplicitEnabledNormalizedTendonForce is false; when
    getImplicitEnabledNormalizedTendonForce is true it is the discrete
    derivative variable; with a compliant tendon and implicit mode not
    enabled it is the derivative of the normalized tendon force state.
    The discrete variable is read in no other mode: when
    getImplicitEnabledNormalizedTendonForce is false, two states with the
    same state derivative give the same result whatever their discrete
    variables. *)
Theorem getNormalizedTendonForceDerivative_sources
    (m : Muscle) (s s' : State) :
  (get_ignore_tendon_compliance m = true ->
   getImplicitEnabledNormalizedTendonForce m s = false /\
   getNormalizedTendonForceDerivative m s = Some 0%R) /\
  (getImplicitEnabledNormalizedTendonForce m s = true ->
   getNormalizedTendonForceDerivative m s
   = getDiscreteVariableValue s DERIVATIVE_NORMALIZED_TENDON_FORCE_NAME) /\
  (get_ignore_tendon_compliance m = false ->
   getImplicitEnabledNormalizedTendonForce m s = false ->
   getNormalizedTendonForceDerivative m s
   = getStateVariableDerivativeValue s STATE_NORMALIZED_TENDON_FORCE_NAME) /\
  (getImplicitEnabledNormalizedTendonForce m s = false ->
   getStateVariableDerivativeValue s STATE_NORMALIZED_TENDON_FORCE_NAME
   = getStateVariableDerivativeValue s' STATE_NORMALIZED_TENDON_FORCE_NAME ->
   getNormalizedTendonForceDerivative m s
   = getNormalizedTendonForceDerivative m s').
Proof.
  unfold getImplicitEnabledNormalizedTendonForce,
    getNormalizedTendonForceDerivative.
  destruct (get_ignore_tendon_compliance m),
    (m_isTendonDynamicsExplicit m); simpl;
    repeat split; intros; try reflexivity; try discriminate; assumption.
Qed.

Lemma getNormalizedTendonForceDerivative_sources_witness :
  get_ignore_tendon_compliance exampleMuscle = false /\
  getImplicitEnabledNormalizedTendonForce exampleMuscle exampleState = false /\
  getNormalizedTendonForceDerivative exampleMuscle exampleState
  = getStateVariableDerivativeValue exampleState
      STATE_NORMALIZED_TENDON_FORCE_NAME.
Proof.
  split; [reflexivity|]. split; [reflexivity|].
  exact (proj1 (proj2 (proj2 (getNormalizedTendonForceDerivative_sources
           exampleMuscle exampleState exampleState))) eq_refl eq_refl).
Defined.

End StateRestLemmas.

(** ** The model operators *)

Module ModelOperatorLemmas.

Import SimTK DeGrooteFregly2016Muscle StateModel MuscleMechanics
  ModelOperators Examples CurveLemmas.
Local Open Scope R_scope.

(** X27: After ModOpIgnoreTendonCompliance::operate every muscle of the
    model has ignore_tendon_compliance set; for every
    DeGrooteFregly2016Muscle this means calcTendonStiffness is Infinity,
    getNormalizedTendonForceDerivative is 0, setNormalizedTendonForce leaves
    the state unchanged and calcMuscleStiffness returns the fiber stiffness;
    components that are not muscles are those of the finalized model. *)
Theorem ModOpIgnoreTendonCompliance_makes_tendons_rigid
    (finalizeFromProperties : Model -> Model) (model : Model)
    (component : Component) :
  In component
    (ModOpIgnoreTendonCompliance_operate finalizeFromProperties model) ->
  match component with
  | DeGrooteFreglyMuscle muscle =>
      (forall normTendonLength : R,
         calcTendonStiffness muscle normTendonLength = Infinity) /\
      (forall s : State,
         getNormalizedTendonForceDerivative muscle s = Some 0) /\
      (forall (s : State) (f : R),
         setNormalizedTendonForce muscle s f = s) /\
      (forall kT kF : R, calcMuscleStiffness muscle kT kF = kF)
  | OtherMuscle ignore_tendon_compliance _ =>
      ignore_tendon_compliance = true
  | OtherComponent _ => In component (finalizeFromProperties model)
  end.
Proof.
  unfold ModOpIgnoreTendonCompliance_operate. intros Hin.
  apply in_map_iff in Hin. destruct Hin as [original [Heq Hin]].
  destruct original as [m | tc ad | name]; subst component.
  - repeat split.
  - reflexivity.
  - exact Hin.
Qed.

Lemma ModOpIgnoreTendonCompliance_makes_tendons_rigid_witness :
  In (DeGrooteFreglyMuscle (set_ignore_tendon_compliance exampleMuscle true))
    (ModOpIgnoreTendonCompliance_operate (fun model => model) exampleModel)
  /\
  calcTendonStiffness (set_ignore_tendon_compliance exampleMuscle true) 1.02
  = Infinity.
Proof.
  assert (Hin : In (DeGrooteFreglyMuscle
                      (set_ignore_tendon_compliance exampleMuscle true))
                  (ModOpIgnoreTendonCompliance_operate (fun model => model)
                     exampleModel))
    by (left; reflexivity).
  split; [exact Hin|].
  exact (proj1 (ModOpIgnoreTendonCompliance_makes_tendons_rigid
                  (fun model => model) exampleModel _ Hin) 1.02).
Defined.

(** X28: After ModOpIgnorePassiveFiberForces::operate the passive force
    multiplier, its derivative and its integral are 0 at every fiber length
    for every DeGrooteFregly2016Muscle, and every other component (muscles
    of other classes included) is a component of the finalized model,
    unchanged. *)
Theorem ModOpIgnorePassiveFiberForces_only_DeGrooteFregly
    (finalizeFromProperties : Model -> Model) (model : Model)
    (component : Component) :
  In component
    (ModOpIgnorePassiveFiberForces_operate finalizeFromProperties model) ->
  match component with
  | DeGrooteFreglyMuscle muscle =>
      forall normFiberLength : R,
        calcPassiveForceMultiplier muscle normFiberLength = 0 /\
        calcPassiveForceMultiplierDerivative muscle normFiberLength = 0 /\
        calcPassiveForceMultiplierIntegral muscle normFiberLength = 0
  | _ => In component (finalizeFromProperties model)
  end.
Proof.
  unfold ModOpIgnorePassiveFiberForces_operate. intros Hin.
  apply in_map_iff in Hin. destruct Hin as [original [Heq Hin]].
  destruct original as [m | tc ad | name]; subst component.
  - intros x. repeat split.
  - exact Hin.
  - exact Hin.
Qed.

Lemma ModOpIgnorePassiveFiberForces_only_DeGrooteFregly_witness :
  In (OtherMuscle false false)
    (ModOpIgnorePassiveFiberForces_operate (fun model => model) exampleModel)
  /\ In (OtherMuscle false false) exampleModel.
Proof.
  assert (Hin : In (OtherMuscle false false)
                  (ModOpIgnorePassiveFiberForces_operate (fun model => model)
                     exampleModel))
    by (right; left; reflexivity).
  split; [exact Hin|].
  exact (ModOpIgnorePassiveFiberForces_only_DeGrooteFregly
           (fun model => model) exampleModel _ Hin).
Defined.

Lemma width_scale_stretches_about_one (m : Muscle) (scale u : R) :
  scale <> 0 ->
  calcActiveForceLengthMultiplier (set_active_force_width_scale m scale)
    (1 + scale * u)
  = calcActiveForceLengthMultiplier (set_active_force_width_scale m 1)
      (1 + u).
Proof.
  intros Hscale. unfold calcActiveForceLengthMultiplier. simpl.
  replace ((1 + scale * u - 1.0) / scale + 1.0) with ((1 + u - 1.0) / 1 + 1.0)
    by (replace 1.0 with 1 by lra; field; exact Hscale).
  reflexivity.
Qed.

(** X29: Every DeGrooteFregly2016Muscle after
    ModOpScaleActiveFiberForceCurveWidth::operate is a muscle of the
    finalized model with active_force_width_scale replaced by the scale
    factor: for a non-zero factor s its active force-length curve still
    takes the value 1 (within 1e-15) at 1.0 and its value at 1 + s u is the
    value of the unit-width curve at 1 + u, and its passive and tendon
    curves are unchanged. *)
Theorem ModOpScaleActiveFiberForceCurveWidth_stretches_curve
    (finalizeFromProperties : Model -> Model) (scale_factor : R)
    (model : Model) (muscle : Muscle) :
  In (DeGrooteFreglyMuscle muscle)
    (ModOpScaleActiveFiberForceCurveWidth_operate finalizeFromProperties
       scale_factor model) ->
  exists original : Muscle,
    In (DeGrooteFreglyMuscle original) (finalizeFromProperties model) /\
    muscle = set_active_force_width_scale original scale_factor /\
    (scale_factor <> 0 ->
     Rabs (calcActiveForceLengthMultiplier muscle 1.0 - 1.0) <= tolerance /\
     forall u : R,
       calcActiveForceLengthMultiplier muscle (1 + scale_factor * u)
       = calcActiveForceLengthMultiplier
           (set_active_force_width_scale original 1) (1 + u)) /\
    (forall x : R,
       calcPassiveForceMultiplier muscle x
       = calcPassiveForceMultiplier original x /\
       calcTendonForceMultiplier muscle x
       = calcTendonForceMultiplier original x).
Proof.
  unfold ModOpScaleActiveFiberForceCurveWidth_operate. intros Hin.
  apply in_map_iff in Hin. destruct Hin as [component [Heq Hin]].
  destruct component as [m | tc ad | name]; try discriminate.
  injection Heq as <-.
  exists m. split; [exact Hin|]. split; [reflexivity|].
  split; [intros Hscale; split;
          [apply active_force_length_at_one
          | intros u; apply width_scale_stretches_about_one; exact Hscale]|].
  intros x. split; reflexivity.
Qed.

Lemma ModOpScaleActiveFiberForceCurveWidth_stretches_curve_witness :
  In (DeGrooteFreglyMuscle (set_active_force_width_scale exampleMuscle 1.5))
    (ModOpScaleActiveFiberForceCurveWidth_operate (fun model => model) 1.5
       exampleModel) /\
  exists original : Muscle,
    set_active_force_width_scale exampleMuscle 1.5
    = set_active_force_width_scale original 1.5.
Proof.
  assert (Hin : In (DeGrooteFreglyMuscle
                      (set_active_force_width_scale exampleMuscle 1.5))
                  (ModOpScaleActiveFiberForceCurveWidth_operate
                     (fun model => model) 1.5 exampleModel))
    by (left; reflexivity).
  split; [exact Hin|].
  destruct (ModOpScaleActiveFiberForceCurveWidth_stretches_curve
              (fun model => model) 1.5 exampleModel _ Hin)
    as [original [_ [Heq _]]].
  exists original. exact Heq.
Defined.

(** X30: After ModOpIgnoreActivationDynamics::operate every muscle of the
    model has ignore_activation_dynamics set; for every
    DeGrooteFregly2016Muscle getActivation reads the control, setActivation
    changes no state variable, and getActivation after setActivation(s, a)
    returns a when the muscle's control slot exists. *)
Theorem ModOpIgnoreActivationDynamics_makes_activation_the_control
    (finalizeFromProperties : Model -> Model) (model : Model)
    (component : Component) :
  In component
    (ModOpIgnoreActivationDynamics_operate finalizeFromProperties model) ->
  match component with
  | DeGrooteFreglyMuscle muscle =>
      (forall s : State, getActivation muscle s = getControl muscle s) /\
      (forall (s : State) (a : R),
         stateVariables (setActivation muscle s a) = stateVariables s) /\
      (forall (s : State) (a : R),
         (controlIndex muscle < length (controls s))%nat ->
         getActivation muscle (setActivation muscle s a) = Some a)
  | OtherMuscle _ ignore_activation_dynamics =>
      ignore_activation_dynamics = true
  | OtherComponent _ => In component (finalizeFromProperties model)
  end.
Proof.
  unfold ModOpIgnoreActivationDynamics_operate. intros Hin.
  apply in_map_iff in Hin. destruct Hin as [original [Heq Hin]].
  destruct original as [m | tc ad | name]; subst component.
  - split; [reflexivity|]. split; [reflexivity|].
    intros s a Hidx. unfold getActivation, setActivation, getControl. simpl.
    apply list_lookup_insert_eq. exact Hidx.
  - reflexivity.
  - exact Hin.
Qed.

Lemma ModOpIgnoreActivationDynamics_makes_activation_the_control_witness :
  In (DeGrooteFreglyMuscle
        (set_ignore_activation_dynamics exampleMuscle true))
    (ModOpIgnoreActivationDynamics_operate (fun model => model) exampleModel)
  /\
  getActivation (set_ignore_activation_dynamics exampleMuscle true)
    exampleState
  = getControl (set_ignore_activation_dynamics exampleMuscle true)
      exampleState.
Proof.
  assert (Hin : In (DeGrooteFreglyMuscle
                      (set_ignore_activation_dynamics exampleMuscle true))
                  (ModOpIgnoreActivationDynamics_operate (fun model => model)
                     exampleModel))
    by (left; reflexivity).
  split; [exact Hin|].
  exact (proj1 (ModOpIgnoreActivationDynamics_makes_activation_the_control
                  (fun model => model) exampleModel _ Hin) exampleState).
Defined.

End ModelOperatorLemmas.
